(** * AutomatedWhatsApp.py: the cancellation watcher, embedded and verified

    The script polls the WhatsApp window, classifies the captured text as a
    cancellation of office hours, extracts a time range from it, checks the
    Google calendar for conflicts and, when free, replies and books the slot.

    This file embeds [message_indicates_cancellation],
    [extract_time_range_from_text] (with its helper [infer_am_pm]),
    [check_availability], [read_whatsapp], [create_calendar_event] and
    [main_loop].

    Libraries the script calls are not part of the repository.  They enter
    the embedding as follows:
    - [re.findall] on the script's one pattern: a backtracking matcher
      written as a list of successes, alternatives in the engine's order;
    - [int], [str.lower], [str.split], [in] on strings: written out;
    - [dateparser.parse], the zone database behind [pytz] and the spaCy
      pipeline [nlp]: parameters of the functions that call them.  Closed
      examples instantiate them with [Clock12.parse] (the twelve-hour clock
      reading of a token such as 9:30am), a constant offset, and explicit
      analysis results;
    - the Google Calendar service and pyautogui: their results are the
      per-cycle environment of [main_loop]; their calls are the trace.
    ISO-8601 strings exchanged between the functions are represented by the
    datetimes they denote.  Console output ([print]) is not traced.

    Text is a string of 8-bit characters and stands for a Python [str] of
    ASCII characters.  The character classes below ([\d], [\s], what [int]
    and [str.lower] accept) are Python's on such text; Python extends them
    to other Unicode digits, blanks and letters, which this file does not
    represent.  A statement that quantifies over the text and depends on
    what the pattern matches says so with [is_ascii]. *)

From Stdlib Require Import ZArith List Bool String Ascii Lia Permutation.
Import ListNotations.
Local Open Scope string_scope.
Local Open Scope Z_scope.

(** ** Characters and strings, as Python treats them *)

Module PyStr.

Definition code (c : ascii) : nat := nat_of_ascii c.

(** [\d] on an ASCII character. *)
Definition is_digit (c : ascii) : bool :=
  (48 <=? code c)%nat && (code c <=? 57)%nat.

(** [\s] and [str.isspace] on an ASCII character: tab, line feed, vertical
    tab, form feed, carriage return, the four separators 28..31, space. *)
Definition is_space (c : ascii) : bool :=
  ((9 <=? code c)%nat && (code c <=? 13)%nat)
  || ((28 <=? code c)%nat && (code c <=? 32)%nat).

Definition digit_value (c : ascii) : Z := Z.of_nat (code c - 48).

Definition lower_char (c : ascii) : ascii :=
  if (65 <=? code c)%nat && (code c <=? 90)%nat
  then ascii_of_nat (code c + 32) else c.

(** [s.lower()], for ASCII text *)
Fixpoint lower (s : string) : string :=
  match s with
  | EmptyString => EmptyString
  | String c r => String (lower_char c) (lower r)
  end.

(** [k in s] for strings: [k] occurs in [s] as a contiguous substring. *)
Fixpoint contains (k s : string) : bool :=
  if String.prefix k s then true
  else match s with
       | EmptyString => false
       | String _ r => contains k r
       end.

(** [s.split(sep)[0]] for a one-character separator: the text before its
    first occurrence, the whole of [s] when there is none. *)
Fixpoint before_first (sep : ascii) (s : string) : string :=
  match s with
  | EmptyString => EmptyString
  | String c r => if Ascii.eqb c sep then EmptyString
                  else String c (before_first sep r)
  end.

Fixpoint lstrip (s : string) : string :=
  match s with
  | String c r => if is_space c then lstrip r else s
  | EmptyString => EmptyString
  end.

Fixpoint rstrip (s : string) : string :=
  match s with
  | EmptyString => EmptyString
  | String c r =>
      match rstrip r with
      | EmptyString => if is_space c then EmptyString else String c EmptyString
      | r' => String c r'
      end
  end.

Definition strip (s : string) : string := rstrip (lstrip s).

(** Digits with single underscores between them, as [int] accepts them:
    [seen] tells whether the previous character was a digit. *)
Fixpoint int_digits (s : string) (acc : Z) (seen : bool) : option Z :=
  match s with
  | EmptyString => if seen then Some acc else None
  | String c r =>
      if is_digit c then int_digits r (10 * acc + digit_value c) true
      else if Ascii.eqb c "_" && seen then int_digits r acc false
      else None
  end.

(** [int(s)] in base ten, for ASCII text; [None] stands for [ValueError]. *)
Definition int (s : string) : option Z :=
  match strip s with
  | String "+" r => int_digits r 0 false
  | String "-" r => option_map Z.opp (int_digits r 0 false)
  | t => int_digits t 0 false
  end.

End PyStr.

(** ** The regular expression of [extract_time_range_from_text]

    [(\d{1,2}(?::\d{2})?)\s*(?:to|-)\s*(\d{1,2}(?::\d{2})?)], compiled
    with [re.IGNORECASE].  Each piece returns the ways it can match a prefix
    of the input, in the order the backtracking engine tries them (greedy
    first), each with the text matched and the text left. *)

Module Re.
Import PyStr.

Definition alt := (string * string)%type.

(** [\d{1,2}], greedy: two digits before one. *)
Definition digits12 (s : string) : list alt :=
  match s with
  | String a (String b r) =>
      if is_digit a then
        if is_digit b
        then [ (String a (String b EmptyString), r)
             ; (String a EmptyString, String b r) ]
        else [ (String a EmptyString, String b r) ]
      else []
  | String a EmptyString =>
      if is_digit a then [ (String a EmptyString, EmptyString) ] else []
  | EmptyString => []
  end.

(** [(?::\d{2})?], greedy: with the minutes before without. *)
Definition minutes_opt (s : string) : list alt :=
  match s with
  | String ":" (String a (String b r)) =>
      if is_digit a && is_digit b
      then [ (String ":" (String a (String b EmptyString)), r)
           ; (EmptyString, s) ]
      else [ (EmptyString, s) ]
  | _ => [ (EmptyString, s) ]
  end.

(** The group [\d{1,2}(?::\d{2})?]. *)
Definition time_token (s : string) : list alt :=
  flat_map (fun '(d, r) =>
              map (fun '(m, r') => (d ++ m, r')) (minutes_opt r))
           (digits12 s).

(** [\s*], greedy: the longest run of blanks first, then shorter ones. *)
Fixpoint spaces (s : string) : list string :=
  match s with
  | String c r => if is_space c then spaces r ++ [s] else [s]
  | EmptyString => [s]
  end.

(** [(?:to|-)] under IGNORECASE: the word first, then the dash. *)
Definition separator (s : string) : list string :=
  match s with
  | String a (String b r) =>
      if Ascii.eqb (lower_char a) "t" && Ascii.eqb (lower_char b) "o"
      then [r]
      else if Ascii.eqb a "-" then [String b r] else []
  | String a EmptyString => if Ascii.eqb a "-" then [EmptyString] else []
  | EmptyString => []
  end.

(** All matches of the whole pattern anchored at the start of [s]:
    group 1, group 2 and the text after the match. *)
Definition matches_here (s : string) : list (string * string * string) :=
  flat_map (fun '(g1, r1) =>
    flat_map (fun r2 =>
      flat_map (fun r3 =>
        flat_map (fun r4 =>
          map (fun '(g2, r5) => (g1, g2, r5)) (time_token r4))
        (spaces r3))
      (separator r2))
    (spaces r1))
  (time_token s).

(** The engine keeps the first success. *)
Definition match_here (s : string) : option (string * string * string) :=
  hd_error (matches_here s).

(** [re.findall]: scan left to right; after a match resume at its end
    ([skip] counts the characters of the last match still to pass over). *)
Fixpoint findall_from (skip : nat) (s : string) : list (string * string) :=
  match s with
  | EmptyString => []
  | String _ r =>
      match skip with
      | S k => findall_from k r
      | O =>
          match match_here s with
          | Some (g1, g2, rest) =>
              (g1, g2)
                :: findall_from (String.length s - String.length rest - 1) r
          | None => findall_from 0 r
          end
      end
  end.

Definition findall (text : string) : list (string * string) :=
  findall_from 0 text.

End Re.

(** ** Datetimes *)

(** A [datetime.datetime] without zone: the seven fields Python compares. *)
Record naive := mk_naive
  { year : Z; month : Z; day : Z;
    hour : Z; minute : Z; second : Z; microsecond : Z }.

(** A [datetime.datetime]: naive when [tzinfo] is [None], otherwise aware
    with the UTC offset of its zone at that moment, in seconds. *)
Record datetime := mk_datetime { wall : naive; tzinfo : option Z }.

Module Datetime.

Definition fields (d : naive) : list Z :=
  [year d; month d; day d; hour d; minute d; second d; microsecond d].

Fixpoint lex_compare (a b : list Z) : comparison :=
  match a, b with
  | x :: a', y :: b' =>
      match x ?= y with
      | Eq => lex_compare a' b'
      | c => c
      end
  | [], [] => Eq
  | [], _ :: _ => Lt
  | _ :: _, [] => Gt
  end.

(** Comparison of two naive datetimes: field by field. *)
Definition compare_naive (a b : naive) : comparison :=
  lex_compare (fields a) (fields b).

Definition gt_naive (a b : naive) : bool :=
  match compare_naive a b with Gt => true | _ => false end.

(** [dt.replace(year=.., month=.., day=..)] with the date of [now]. *)
Definition replace_date (dt now : naive) : naive :=
  {| year := year now; month := month now; day := day now;
     hour := hour dt; minute := minute dt; second := second dt;
     microsecond := microsecond dt |}.

(** [datetime.combine(today, time(0, 0))] for the date of [now]. *)
Definition midnight (now : naive) : naive :=
  {| year := year now; month := month now; day := day now;
     hour := 0; minute := 0; second := 0; microsecond := 0 |}.

Definition is_leap (y : Z) : bool :=
  (y mod 4 =? 0) && (negb (y mod 100 =? 0) || (y mod 400 =? 0)).

Definition days_before_year (y : Z) : Z :=
  let p := y - 1 in p * 365 + p / 4 - p / 100 + p / 400.

Definition days_before_month (y m : Z) : Z :=
  nth (Z.to_nat (m - 1))
      [0; 31; 59; 90; 120; 151; 181; 212; 243; 273; 304; 334] 0
  + (if (2 <? m) && is_leap y then 1 else 0).

(** [date.toordinal()] *)
Definition toordinal (d : naive) : Z :=
  days_before_year (year d) + days_before_month (year d) (month d) + day d.

(** Microseconds of the wall clock since ordinal day 0. *)
Definition wall_micros (d : naive) : Z :=
  (((toordinal d * 24 + hour d) * 60 + minute d) * 60 + second d) * 1000000
  + microsecond d.

(** The instant of an aware datetime with offset [off] seconds. *)
Definition instant (d : naive) (off : Z) : Z :=
  wall_micros d - off * 1000000.

End Datetime.

(** Exceptions that reach [main_loop]. *)
Inductive exn :=
| TypeError                      (* naive compared with aware *)
| HttpError (status : Z)         (* googleapiclient.errors.HttpError *)
| TransportError                 (* the request never completed *)
| FailSafeException.             (* pyautogui refusing to type *)

Inductive result (A : Type) :=
| Ok (a : A)
| Raise (e : exn).
Arguments Ok {A} a.
Arguments Raise {A} e.

Module Cmp.
Import Datetime.

(** [datetime._cmp]: equal zones or equal offsets compare the fields;
    different offsets compare the instants; one naive and one aware raise
    [TypeError]. *)
Definition cmp (a b : datetime) : result comparison :=
  match tzinfo a, tzinfo b with
  | None, None => Ok (compare_naive (wall a) (wall b))
  | Some oa, Some ob =>
      if oa =? ob then Ok (compare_naive (wall a) (wall b))
      else Ok (instant (wall a) oa ?= instant (wall b) ob)
  | _, _ => Raise TypeError
  end.

(** [a < b] *)
Definition lt (a b : datetime) : result bool :=
  match cmp a b with
  | Ok Lt => Ok true
  | Ok _ => Ok false
  | Raise e => Raise e
  end.

(** [a > b] *)
Definition gt (a b : datetime) : result bool :=
  match cmp a b with
  | Ok Gt => Ok true
  | Ok _ => Ok false
  | Raise e => Raise e
  end.

End Cmp.

(** ** Interval parser *)

(** [infer_am_pm(raw, is_start)], the helper nested in
    [extract_time_range_from_text]. *)
Definition infer_am_pm (raw : string) (is_start : bool) : string :=
  let hour_part :=
    if PyStr.contains ":" raw then PyStr.before_first ":" raw else raw in
  match PyStr.int hour_part with
  | None => raw
  | Some hour =>
      if PyStr.contains "am" (PyStr.lower raw)
         || PyStr.contains "pm" (PyStr.lower raw)
      then raw
      else if is_start && (1 <=? hour) && (hour <=? 11)
      then raw ++ "am"
      else if negb is_start && (1 <=? hour) && (hour <=? 7)
      then raw ++ "pm"
      else raw ++ "pm"
  end.

(** The twelve-hour clock: how a token [H], [HH], [H:MM] or [HH:MM]
    followed by am or pm reads, on the date of the reference datetime.
    Used where a closed example needs a date resolver; tokens that are not
    twelve-hour clock times (hour 0 or above 12, minutes above 59) are left
    unread here, whatever dateparser makes of them. *)
Module Clock12.
Import PyStr.

Definition number (s : string) : Z :=
  match int_digits s 0 false with Some n => n | None => 0 end.

Definition meridiem (s : string) : option bool :=
  if String.eqb s "am" then Some false
  else if String.eqb s "pm" then Some true
  else None.

Definition parse (base : naive) (s : string) : option naive :=
  match Re.time_token s with
  | (tok, suffix) :: _ =>
      let h := number (before_first ":" tok) in
      let m := if contains ":" tok
               then number (String.substring
                              (S (String.length (before_first ":" tok))) 2 tok)
               else 0 in
      match meridiem suffix with
      | Some pm =>
          if (1 <=? h) && (h <=? 12) && (m <=? 59)
          then Some {| year := year base; month := month base;
                       day := day base;
                       hour := h mod 12 + (if pm then 12 else 0);
                       minute := m; second := 0; microsecond := 0 |}
          else None
      | None => None
      end
  | [] => None
  end.

End Clock12.

Section Parser.

(** [dateparser.parse(s, settings)] on the token [s], where the first
    argument is the RELATIVE_BASE of the settings (PREFER_DATES_FROM is
    always future); [None] when the text does not resolve.  The tokens
    carry no zone, so the result is naive. *)
Variable dateparser_parse : naive -> string -> option naive.

(** The offset, in seconds, of America/New_York at a wall-clock time. *)
Variable eastern_utcoffset : naive -> Z.

(** [eastern.localize(dt)] *)
Definition localize (dt : naive) : datetime :=
  {| wall := dt; tzinfo := Some (eastern_utcoffset dt) |}.

(** The [for start_raw, end_raw in matches] loop: [None] is the pair
    [(None, None)], [Some] the pair of the two endpoints. *)
Fixpoint first_range (now : naive) (matches : list (string * string))
  : option (datetime * datetime) :=
  match matches with
  | [] => None
  | (start_raw, end_raw) :: later =>
      let start_str := infer_am_pm start_raw true in
      let end_str := infer_am_pm end_raw false in
      let base := Datetime.midnight now in
      match dateparser_parse base start_str,
            dateparser_parse base end_str with
      | Some start_dt, Some end_dt =>
          let start_dt := Datetime.replace_date start_dt now in
          let end_dt := Datetime.replace_date end_dt now in
          if Datetime.gt_naive start_dt end_dt
          then None
          else Some (localize start_dt, localize end_dt)
      | _, _ => first_range now later
      end
  end.

(** [extract_time_range_from_text(text)], with [now] the value of
    [datetime.datetime.now()] at the call. *)
Definition extract_time_range_from_text (now : naive) (text : string)
  : option (datetime * datetime) :=
  first_range now (Re.findall text).

End Parser.

(** ** Cancellation classifier *)

(** What the script reads off a spaCy document: the lemma of each token
    and the text of each noun chunk. *)
Record Token := { lemma_ : string }.
Record Doc := { tokens : list Token; noun_chunks : list string }.

Definition cancel_keywords : list string :=
  ["cancel"; "skip"; "drop"; "remove"; "postpone"].

Definition oh_keywords : list string :=
  ["office hours"; "oh"; "ta hours"; "hours"].

(** The first loop: some token's lemma is a cancel keyword. *)
Definition cancel_found (doc : Doc) : bool :=
  existsb (fun token => existsb (String.eqb (lemma_ token)) cancel_keywords)
          (tokens doc).

(** The second loop: some noun chunk's text contains a topic keyword. *)
Definition oh_found (doc : Doc) : bool :=
  existsb (fun chunk =>
             existsb (fun keyword => PyStr.contains keyword chunk) oh_keywords)
          (noun_chunks doc).

Section Classifier.

(** The loaded pipeline, [spacy.load("en_core_web_sm")]. *)
Variable nlp : string -> Doc.

Definition message_indicates_cancellation (text : string) : bool :=
  let doc := nlp (PyStr.lower text) in
  cancel_found doc && oh_found doc.

End Classifier.

(** ** Availability checker *)

(** The [start] or [end] object of a calendar event: [dateTime] for a timed
    event, [date] (year, month, day) for an all-day one. *)
Record EventTime :=
  { dateTime : option datetime; date : option (Z * Z * Z) }.

Record Event :=
  { start : EventTime; end_ : EventTime; summary : option string }.

(** [datetime.fromisoformat] of a bare date: naive midnight. *)
Definition fromisoformat_date (d : Z * Z * Z) : datetime :=
  let '(y, m, dd) := d in
  {| wall := {| year := y; month := m; day := dd; hour := 0; minute := 0;
                second := 0; microsecond := 0 |};
     tzinfo := None |}.

(** [t.get('dateTime', t.get('date'))], then [fromisoformat] of the value
    found. *)
Definition event_stamp (t : EventTime) : option datetime :=
  match dateTime t with
  | Some dt => Some dt
  | None => option_map fromisoformat_date (date t)
  end.

(** The [for event in events] loop of [check_availability]. *)
Fixpoint check_events (new_start new_end : datetime) (events : list Event)
  : result bool :=
  match events with
  | [] => Ok true
  | event :: later =>
      match event_stamp (start event), event_stamp (end_ event) with
      | Some event_start, Some event_end =>
          match Cmp.lt new_start event_end with
          | Raise e => Raise e
          | Ok false => check_events new_start new_end later
          | Ok true =>
              match Cmp.gt new_end event_start with
              | Raise e => Raise e
              | Ok true => Ok false
              | Ok false => check_events new_start new_end later
              end
          end
      | _, _ => check_events new_start new_end later
      end
  end.

(** [check_availability(time_start, time_end)]; [listing] is what
    [service.events().list(...).execute()] does at this call. *)
Definition check_availability (listing : result (list Event))
  (time_start time_end : datetime) : result bool :=
  match listing with
  | Raise e => Raise e
  | Ok events => check_events time_start time_end events
  end.

(** ** Orchestrator *)

(** What the outside world does during one pass of the loop. *)
Record Cycle :=
  { screen : option string;            (* OCR text; None: capture raised *)
    clock : naive;                     (* datetime.datetime.now() *)
    listing : result (list Event);     (* events().list().execute() *)
    typing : result unit;              (* pyautogui.write and press *)
    insertion : result unit }.         (* events().insert().execute() *)

(** Calls the loop makes on its collaborators, and its poll delay. *)
Inductive action :=
| ListEvents (timeMin timeMax : datetime)
| Reply (message : string)
| InsertEvent (title : string) (time_start time_end : datetime)
| Sleep (seconds : Z).

(** How one pass of the [while True] body ends. *)
Inductive signal :=
| Continue
| Break
| Abort (e : exn).

(** How a run stands after the cycles supplied. *)
Inductive status :=
| Polling
| Exited
| Crashed (e : exn).

(** [read_whatsapp()]: the text read, or the empty string when anything in
    the capture raised. *)
Definition read_whatsapp (captured : option string) : string :=
  match captured with
  | Some text => text
  | None => ""
  end.

Section Orchestrator.

Variable nlp : string -> Doc.
Variable dateparser_parse : naive -> string -> option naive.
Variable eastern_utcoffset : naive -> Z.

Definition reply_text : string := "I'm free, I can take over!".
Definition event_title : string := "TA Office Hours (Covered)".

(** One pass of the body of [while True]. *)
Definition cycle (c : Cycle) : list action * signal :=
  let text := read_whatsapp (screen c) in
  if message_indicates_cancellation nlp text then
    match extract_time_range_from_text dateparser_parse eastern_utcoffset
            (clock c) text with
    | Some (time_start, time_end) =>
        match check_availability (listing c) time_start time_end with
        | Raise e => ([ListEvents time_start time_end], Abort e)
        | Ok true =>
            match typing c with
            | Raise e =>
                ([ListEvents time_start time_end; Reply reply_text], Abort e)
            | Ok _ =>
                ([ListEvents time_start time_end; Reply reply_text;
                  InsertEvent event_title time_start time_end],
                 match insertion c with
                 | Raise e => Abort e
                 | Ok _ => Break
                 end)
            end
        | Ok false => ([ListEvents time_start time_end; Sleep 10], Continue)
        end
    | None => ([Sleep 10], Continue)
    end
  else ([Sleep 10], Continue).

(** [main_loop()] run against the cycles supplied by the environment. *)
Fixpoint main_loop (cycles : list Cycle) : list action * status :=
  match cycles with
  | [] => ([], Polling)
  | c :: later =>
      match cycle c with
      | (done, Continue) =>
          let '(more, st) := main_loop later in ((done ++ more)%list, st)
      | (done, Break) => (done, Exited)
      | (done, Abort e) => (done, Crashed e)
      end
  end.

End Orchestrator.

(** * Vocabulary of the statements *)

(** An action match: some token whose lemma is one of the cancel verbs. *)
Definition action_match (doc : Doc) : Prop :=
  exists token, In token (tokens doc) /\ In (lemma_ token) cancel_keywords.

(** A topic match: some noun chunk in which a topic keyword occurs. *)
Definition topic_match (doc : Doc) : Prop :=
  exists chunk keyword,
    In chunk (noun_chunks doc) /\ In keyword oh_keywords
    /\ exists a b, chunk = a ++ keyword ++ b.

(** The wall-clock time [h]:[m] on the date of [now]. *)
Definition at_time (now : naive) (h m : Z) : naive :=
  {| year := year now; month := month now; day := day now;
     hour := h; minute := m; second := 0; microsecond := 0 |}.

(** Two datetimes show the same time of day. *)
Definition same_time (a b : naive) : Prop :=
  hour a = hour b /\ minute a = minute b /\ second a = second b
  /\ microsecond a = microsecond b.

(** A resolver that reads every twelve-hour clock time to the time of day
    the clock gives it, on whatever date. *)
Definition reads_clock (parse : naive -> string -> option naive) : Prop :=
  forall base s t,
    Clock12.parse base s = Some t ->
    exists t', parse base s = Some t' /\ same_time t' t.

(** What one candidate of the pattern resolves to: both endpoints, each
    with its inferred marker, read by the resolver and moved onto the date
    of [now]; [None] when either endpoint does not resolve. *)
Definition resolve (parse : naive -> string -> option naive) (now : naive)
  (candidate : string * string) : option (naive * naive) :=
  match parse (Datetime.midnight now) (infer_am_pm (fst candidate) true),
        parse (Datetime.midnight now) (infer_am_pm (snd candidate) false)
  with
  | Some a, Some b =>
      Some (Datetime.replace_date a now, Datetime.replace_date b now)
  | _, _ => None
  end.


Definition aware (d : datetime) : Prop := tzinfo d <> None.

(** Every timestamp the event carries has a zone. *)
Definition stamps_aware (ev : Event) : Prop :=
  forall t, event_stamp (start ev) = Some t \/ event_stamp (end_ ev) = Some t ->
            aware t.

(** The overlap test on one event: both timestamps present,
    [new_start < event_end] and [new_end > event_start]. *)
Definition conflicts (new_start new_end : datetime) (ev : Event) : Prop :=
  exists event_start event_end,
    event_stamp (start ev) = Some event_start
    /\ event_stamp (end_ ev) = Some event_end
    /\ Cmp.lt new_start event_end = Ok true
    /\ Cmp.gt new_end event_start = Ok true.

Definition is_reply (a : action) : bool :=
  match a with Reply _ => true | _ => false end.

Definition is_insert (a : action) : bool :=
  match a with InsertEvent _ _ _ => true | _ => false end.

Definition replies (trace : list action) : nat :=
  List.length (filter is_reply trace).

Definition inserts (trace : list action) : nat :=
  List.length (filter is_insert trace).

(** ** Sample data for the closed examples *)

(** Thursday 8 May 2025, 10:15:30, and the offset of Eastern daylight
    time, which holds on that day. *)
Definition may8 : naive := mk_naive 2025 5 8 10 15 30 0.
Definition edt : naive -> Z := fun _ => -14400.

Definition local (now : naive) (h m : Z) : datetime :=
  localize edt (at_time now h m).

(** A timed event from [h1]:[m1] to [h2]:[m2] on the date of [now]. *)
Definition timed_event (now : naive) (h1 m1 h2 m2 : Z) : Event :=
  {| start := {| dateTime := Some (local now h1 m1); date := None |};
     end_ := {| dateTime := Some (local now h2 m2); date := None |};
     summary := Some "Lecture" |}.

(** An all-day event from day [d1] to day [d2]. *)
Definition all_day_event (d1 d2 : Z * Z * Z) (title : option string) : Event :=
  {| start := {| dateTime := None; date := Some d1 |};
     end_ := {| dateTime := None; date := Some d2 |};
     summary := title |}.

(** A stand-in pipeline: the analysis of two sample messages (already in
    lower case), the empty document for any other text. *)
Definition sample_nlp (text : string) : Doc :=
  if String.eqb text "i had to cancel my flight after waiting two hours"
  then {| tokens := map Build_Token
            ["i"; "have"; "to"; "cancel"; "my"; "flight"; "after"; "wait";
             "two"; "hour"];
          noun_chunks := ["i"; "my flight"; "two hours"] |}
  else if String.eqb text "i need to cancel my office hours 2 to 4"
  then {| tokens := map Build_Token
            ["i"; "need"; "to"; "cancel"; "my"; "office"; "hour"; "2"; "to";
             "4"];
          noun_chunks := ["i"; "my office hours"] |}
  else {| tokens := []; noun_chunks := [] |}.

Definition cancellation_text : string :=
  "I need to cancel my office hours 2 to 4".

(** A cycle in which the cancellation is on screen and the calendar
    answers with [answer]. *)
Definition cancellation_cycle (answer : result (list Event)) : Cycle :=
  {| screen := Some cancellation_text; clock := may8; listing := answer;
     typing := Ok tt; insertion := Ok tt |}.

(** A cycle in which nothing is on screen. *)
Definition quiet_cycle : Cycle :=
  {| screen := Some ""; clock := may8; listing := Ok [];
     typing := Ok tt; insertion := Ok tt |}.

(** ** Vocabulary of the further properties *)

(** The optional minutes of a time token: nothing, or a colon and two
    digits. *)
Definition is_minutes (m : string) : bool :=
  match m with
  | EmptyString => true
  | String c (String x (String y EmptyString)) =>
      Ascii.eqb c ":" && PyStr.is_digit x && PyStr.is_digit y
  | _ => false
  end.

(** The shape of the two groups of the pattern: one or two digits, then
    the optional minutes. *)
Definition is_time_token (t : string) : bool :=
  match t with
  | String a r =>
      PyStr.is_digit a
      && (is_minutes r
          || match r with
             | String b r' => PyStr.is_digit b && is_minutes r'
             | EmptyString => false
             end)
  | EmptyString => false
  end.

(** No character of the text is a digit. *)
Fixpoint digitless (s : string) : bool :=
  match s with
  | EmptyString => true
  | String c r => negb (PyStr.is_digit c) && digitless r
  end.

(** The hour [infer_am_pm] reads off a token. *)
Definition token_hour (t : string) : option Z :=
  PyStr.int (if PyStr.contains ":" t then PyStr.before_first ":" t else t).

(** The marker [infer_am_pm] gives an unmarked token with hour [h]. *)
Definition inferred_marker (is_start : bool) (h : Z) : string :=
  if is_start && (1 <=? h) && (h <=? 11) then "am" else "pm".

Definition digit_chars : list ascii :=
  ["0"; "1"; "2"; "3"; "4"; "5"; "6"; "7"; "8"; "9"]%char.

(** Every string of one or two digits. *)
Definition hour_parts : list string :=
  flat_map (fun a => String a EmptyString
                     :: map (fun b => String a (String b EmptyString))
                            digit_chars)
           digit_chars.

(** Every shape of minutes: none, or a colon and two digits. *)
Definition minute_parts : list string :=
  EmptyString
    :: flat_map (fun x => map (fun y => String ":" (String x (String y EmptyString)))
                              digit_chars)
                digit_chars.

(** Every time token. *)
Definition all_tokens : list string :=
  flat_map (fun d => map (fun m => d ++ m) minute_parts) hour_parts.

(** What [infer_am_pm] is checked to do on one token. *)
Definition infer_checked (t : string) : bool :=
  match token_hour t with
  | Some h =>
      (0 <=? h) && (h <=? 99)
      && String.eqb (infer_am_pm t true) (t ++ inferred_marker true h)
      && String.eqb (infer_am_pm t false) (t ++ "pm")
  | None => false
  end.

(** Two clock readings fall on the same date. *)
Definition same_date (a b : naive) : Prop :=
  year a = year b /\ month a = month b /\ day a = day b.

(** The event has a timestamp at both ends. *)
Definition has_stamps (ev : Event) : bool :=
  match event_stamp (start ev), event_stamp (end_ ev) with
  | Some _, Some _ => true
  | _, _ => false
  end.

Definition is_sleep (a : action) : bool :=
  match a with Sleep _ => true | _ => false end.

Definition is_listing (a : action) : bool :=
  match a with ListEvents _ _ => true | _ => false end.

(** The entry [create_calendar_event(start_time, end_time)] sends to the
    calendar, as the calendar lists it afterwards: a timed event with the
    two endpoints as its [dateTime]s and the fixed title. *)
Definition create_calendar_event (start_time end_time : datetime) : Event :=
  {| start := {| dateTime := Some start_time; date := None |};
     end_ := {| dateTime := Some end_time; date := None |};
     summary := Some event_title |}.

(** A reference datetime for checks that do not depend on the date. *)
Definition epoch : naive := mk_naive 1 1 1 0 0 0 0.

(** What the twelve-hour clock is checked to do on the two readings of one
    token: as a start with an hour from 1 to 11 it reads before noon, as an
    end it reads at or after noon. *)
Definition clock_checked (t : string) : bool :=
  match token_hour t with
  | Some h =>
      (if (1 <=? h) && (h <=? 11)
       then match Clock12.parse epoch (infer_am_pm t true) with
            | Some a => hour a <? 12
            | None => true
            end
       else true)
      && match Clock12.parse epoch (infer_am_pm t false) with
         | Some b => 12 <=? hour b
         | None => true
         end
  | None => false
  end.

(** A cycle in which the screen capture fails. *)
Definition blind_cycle : Cycle :=
  {| screen := None; clock := may8; listing := Ok [];
     typing := Ok tt; insertion := Ok tt |}.

(** A cycle in which the cancellation is on screen, the calendar is empty,
    and the reply and the booking go as given. *)
Definition free_cycle (typed inserted : result unit) : Cycle :=
  {| screen := Some cancellation_text; clock := may8; listing := Ok [];
     typing := typed; insertion := inserted |}.

(** The text is ASCII: every character has a code below 128. *)
Fixpoint is_ascii (s : string) : bool :=
  match s with
  | EmptyString => true
  | String c r => (PyStr.code c <? 128)%nat && is_ascii r
  end.

(** A stand-in pipeline for a message about a person: the analysis of one
    sample message (already in lower case), the empty document for any
    other text. *)
Definition names_nlp (text : string) : Doc :=
  if String.eqb text "john will skip lunch"
  then {| tokens := map Build_Token ["john"; "will"; "skip"; "lunch"];
          noun_chunks := ["john"; "lunch"] |}
  else {| tokens := []; noun_chunks := [] |}.

(** * Properties *)

(** ** Substrings *)

Lemma prefix_app (k s : string) :
  String.prefix k s = true <-> exists b, s = k ++ b.
Proof.
  revert s; induction k as [|c k IH]; intros s.
  - split; [intros _; now exists s | intros _; now destruct s].
  - destruct s as [|d s]; simpl.
    + split; [discriminate | intros [b Hb]; discriminate].
    + destruct (ascii_dec c d) as [->|Hne].
      * rewrite IH. split; intros [b Hb]; exists b.
        -- now rewrite Hb.
        -- now injection Hb.
      * split; [discriminate | intros [b Hb]; injection Hb; congruence].
Qed.

Lemma append_assoc (a b c : string) : (a ++ b) ++ c = a ++ b ++ c.
Proof. induction a as [|x a IH]; simpl; [reflexivity | now rewrite IH]. Qed.

Lemma contains_unfold (k s : string) :
  PyStr.contains k s =
  if String.prefix k s then true
  else match s with
       | EmptyString => false
       | String _ r => PyStr.contains k r
       end.
Proof. destruct s; reflexivity. Qed.

(** [contains k s] decides whether [k] is a contiguous part of [s]. *)
Lemma contains_spec (k s : string) :
  PyStr.contains k s = true <-> exists a b, s = a ++ k ++ b.
Proof.
  induction s as [|c s IH]; rewrite contains_unfold.
  - destruct (String.prefix k "") eqn:Hp.
    + apply prefix_app in Hp as [b Hb].
      split; [intros _; now exists "", b | reflexivity].
    + split; [discriminate|].
      intros [a [b Hab]]. destruct a; [|discriminate].
      simpl in Hab. assert (String.prefix k "" = true)
        by (apply prefix_app; now exists b). congruence.
  - destruct (String.prefix k (String c s)) eqn:Hp.
    + apply prefix_app in Hp as [b Hb].
      split; [intros _; now exists "", b | reflexivity].
    + rewrite IH. split.
      * intros [a [b Hab]]. exists (String c a), b. now rewrite Hab.
      * intros [a [b Hab]]. destruct a as [|c' a].
        -- simpl in Hab. assert (String.prefix k (String c s) = true)
             by (apply prefix_app; now exists b). congruence.
        -- exists a, b. now injection Hab.
Qed.

Lemma contains_trans (k m s : string) :
  PyStr.contains k m = true -> PyStr.contains m s = true ->
  PyStr.contains k s = true.
Proof.
  rewrite !contains_spec. intros [a [b ->]] [a' [b' ->]].
  exists (a' ++ a), (b ++ b').
  rewrite !append_assoc. reflexivity.
Qed.

(** ** Classifier *)

Lemma existsb_eqb_In (x : string) (l : list string) :
  existsb (String.eqb x) l = true <-> In x l.
Proof.
  rewrite existsb_exists. split.
  - intros [y [Hy He]]. apply String.eqb_eq in He. now subst.
  - intros H. exists x. split; [assumption | apply String.eqb_refl].
Qed.

Lemma cancel_found_spec (doc : Doc) :
  cancel_found doc = true <-> action_match doc.
Proof.
  unfold cancel_found, action_match. rewrite existsb_exists.
  split; intros [t [Ht Hl]]; exists t; split; try assumption;
    now apply existsb_eqb_In.
Qed.

Lemma oh_found_spec (doc : Doc) :
  oh_found doc = true <-> topic_match doc.
Proof.
  unfold oh_found, topic_match. rewrite existsb_exists. split.
  - intros [chunk [Hc Hk]]. apply existsb_exists in Hk as [k [Hk Hs]].
    exists chunk, k. repeat split; try assumption. now apply contains_spec.
  - intros [chunk [k [Hc [Hk Hs]]]]. exists chunk. split; [assumption|].
    apply existsb_exists. exists k. split; [assumption|].
    now apply contains_spec.
Qed.


(** A keyword occurs in some noun chunk exactly when oh or hours does:
    the two longer keywords contain hours. *)
Lemma oh_found_substring (doc : Doc) :
  oh_found doc = true
  <-> exists chunk a b,
        In chunk (noun_chunks doc)
        /\ (chunk = a ++ "oh" ++ b \/ chunk = a ++ "hours" ++ b).
Proof.
  unfold oh_found. rewrite existsb_exists. split.
  - intros [chunk [Hin H]]. simpl in H. rewrite !orb_true_iff in H.
    assert (Hc : PyStr.contains "oh" chunk = true
                 \/ PyStr.contains "hours" chunk = true).
    { destruct H as [H|[H|[H|[H|H]]]]; try discriminate; auto;
        right; refine (contains_trans _ _ _ _ H); reflexivity. }
    destruct Hc as [Hc|Hc]; apply contains_spec in Hc as [a [b Hc]];
      exists chunk, a, b; auto.
  - intros [chunk [a [b [Hin H]]]]. exists chunk. split; [exact Hin|].
    simpl. rewrite !orb_true_iff.
    destruct H as [H|H]; [right; left | do 3 right; left];
      apply contains_spec; eauto.
Qed.

(** C5, as the code has it.  The classifier answers true exactly when
    some token of the analysed text has one of the lemmas cancel, skip,
    drop, remove, postpone and some noun chunk has oh or hours somewhere in
    its text, which is all that matching the four keywords by substring
    amounts to, whether or not the chunk is an office-hours phrase.  With
    only one of the two, or neither, it answers false; so it does on any
    text in which the pipeline finds no token or no noun chunk, such as the
    empty text.  It is a total function: no input makes it fail. *)
Theorem classifier_by_lemma_and_substring (nlp : string -> Doc)
  (text : string) :
  (message_indicates_cancellation nlp text = true
   <-> action_match (nlp (PyStr.lower text))
       /\ exists chunk a b,
            In chunk (noun_chunks (nlp (PyStr.lower text)))
            /\ (chunk = a ++ "oh" ++ b \/ chunk = a ++ "hours" ++ b))
  /\ (~ action_match (nlp (PyStr.lower text))
      \/ ~ (exists chunk a b,
              In chunk (noun_chunks (nlp (PyStr.lower text)))
              /\ (chunk = a ++ "oh" ++ b \/ chunk = a ++ "hours" ++ b)) ->
      message_indicates_cancellation nlp text = false)
  /\ (tokens (nlp (PyStr.lower text)) = []
      \/ noun_chunks (nlp (PyStr.lower text)) = [] ->
      message_indicates_cancellation nlp text = false).
Proof.
  unfold message_indicates_cancellation. split; [|split].
  - now rewrite andb_true_iff, cancel_found_spec, oh_found_substring.
  - intros Hone. apply not_true_is_false.
    rewrite andb_true_iff, cancel_found_spec, oh_found_substring. tauto.
  - intros [Hnil|Hnil].
    + unfold cancel_found. now rewrite Hnil.
    + unfold oh_found. rewrite Hnil. apply andb_false_r.
Qed.

Lemma classifier_by_lemma_and_substring_witness :
  message_indicates_cancellation sample_nlp cancellation_text = true
  /\ message_indicates_cancellation sample_nlp "" = false.
Proof.
  split.
  - apply (proj1 (classifier_by_lemma_and_substring sample_nlp
                    cancellation_text)).
    split.
    + exists (Build_Token "cancel"). split; simpl; tauto.
    + exists "my office hours", "my office ", "".
      split; [simpl; tauto | now right].
  - apply (proj2 (proj2 (classifier_by_lemma_and_substring sample_nlp ""))).
    left. reflexivity.
Defined.

(** C5, as the claim states it, fails: this message has an action lemma,
    skip, and no office-hours phrase, its noun chunks being john and lunch;
    yet the classifier answers true, because oh occurs inside john. *)
Lemma oh_inside_a_name_triggers :
  noun_chunks (names_nlp (PyStr.lower "John will skip lunch"))
  = ["john"; "lunch"]
  /\ message_indicates_cancellation names_nlp "John will skip lunch" = true.
Proof. split; reflexivity. Qed.

(** C6, as the code has it.  A topic match is a substring test on the text
    of each noun chunk: it holds exactly when some chunk contains oh or
    hours (the two longer keywords contain hours).  So the bare word hours
    in any noun chunk is a topic match, and together with an action lemma
    it makes the classifier answer true. *)
Theorem topic_match_by_substring (nlp : string -> Doc) (text : string) :
  (oh_found (nlp (PyStr.lower text)) = true
   <-> exists chunk, In chunk (noun_chunks (nlp (PyStr.lower text)))
                     /\ (PyStr.contains "oh" chunk = true
                         \/ PyStr.contains "hours" chunk = true))
  /\ ((exists chunk, In chunk (noun_chunks (nlp (PyStr.lower text)))
                     /\ PyStr.contains "hours" chunk = true) ->
      action_match (nlp (PyStr.lower text)) ->
      message_indicates_cancellation nlp text = true).
Proof.
  assert (Hiff : oh_found (nlp (PyStr.lower text)) = true
     <-> exists chunk, In chunk (noun_chunks (nlp (PyStr.lower text)))
                       /\ (PyStr.contains "oh" chunk = true
                           \/ PyStr.contains "hours" chunk = true)).
  { unfold oh_found. rewrite existsb_exists.
    split; intros [chunk [Hin H]]; exists chunk; (split; [exact Hin|]).
    - simpl in H. rewrite !orb_true_iff in H.
      destruct H as [H|[H|[H|[H|H]]]]; try discriminate; auto;
        right; refine (contains_trans _ _ _ _ H); reflexivity.
    - simpl. rewrite !orb_true_iff. tauto. }
  split; [exact Hiff|].
  intros [chunk [Hin Hc]] Ha. unfold message_indicates_cancellation.
  apply andb_true_iff. split.
  - now apply cancel_found_spec.
  - apply Hiff. exists chunk. auto.
Qed.

Lemma topic_match_by_substring_witness :
  message_indicates_cancellation sample_nlp
    "I had to cancel my flight after waiting two hours" = true.
Proof.
  apply (proj2 (topic_match_by_substring sample_nlp
                  "I had to cancel my flight after waiting two hours")).
  - exists "two hours". split; [simpl; tauto | reflexivity].
  - exists (Build_Token "cancel"). split; simpl; tauto.
Defined.

(** C6, as the claim states it, fails: the only topic-like content of this
    message is the word hours in the unrelated chunk two hours, yet a topic
    match is produced and the classifier answers true. *)
Lemma bare_hours_is_a_topic_match :
  oh_found (sample_nlp (PyStr.lower
     "I had to cancel my flight after waiting two hours")) = true
  /\ message_indicates_cancellation sample_nlp
       "I had to cancel my flight after waiting two hours" = true.
Proof. split; reflexivity. Qed.

(** ** Interval parser *)

Lemma first_range_cons parse off now c later :
  first_range parse off now (c :: later) =
  match resolve parse now c with
  | Some (a, b) =>
      if Datetime.gt_naive a b then None
      else Some (localize off a, localize off b)
  | None => first_range parse off now later
  end.
Proof.
  destruct c as [sr er]. unfold resolve. simpl.
  destruct (parse _ (infer_am_pm sr true)); [|reflexivity].
  destruct (parse _ (infer_am_pm er false)); reflexivity.
Qed.

Lemma first_range_skip parse off now skipped rest :
  Forall (fun c => resolve parse now c = None) skipped ->
  first_range parse off now (skipped ++ rest)%list
  = first_range parse off now rest.
Proof.
  induction 1 as [|c skipped Hc _ IH]; [reflexivity|].
  rewrite <- app_comm_cons, first_range_cons, Hc. exact IH.
Qed.

Lemma gt_naive_compare (a b : naive) :
  Datetime.gt_naive a b = false -> Datetime.compare_naive a b <> Gt.
Proof.
  unfold Datetime.gt_naive. destruct (Datetime.compare_naive a b);
    congruence.
Qed.

Lemma first_range_sound parse off now matches s e :
  first_range parse off now matches = Some (s, e) ->
  exists c a b, In c matches /\ resolve parse now c = Some (a, b)
                /\ Datetime.gt_naive a b = false
                /\ s = localize off a /\ e = localize off b.
Proof.
  induction matches as [|c later IH]; [discriminate|].
  rewrite first_range_cons.
  destruct (resolve parse now c) as [[a b]|] eqn:Hr.
  - destruct (Datetime.gt_naive a b) eqn:Hgt; [discriminate|].
    intros H. injection H as <- <-.
    exists c, a, b. simpl. auto.
  - intros H. destruct (IH H) as [c' [a [b [Hin Hrest]]]].
    exists c', a, b. simpl. auto.
Qed.

Lemma resolve_same_day parse now c a b :
  resolve parse now c = Some (a, b) ->
  (year a, month a, day a) = (year now, month now, day now)
  /\ (year b, month b, day b) = (year now, month now, day now).
Proof.
  unfold resolve. destruct (parse _ _); [|discriminate].
  destruct (parse _ _); [|discriminate].
  intros H. injection H as <- <-. split; reflexivity.
Qed.

Lemma replace_date_at_time (t now : naive) (h m : Z) :
  same_time t (at_time now h m) ->
  Datetime.replace_date t now = at_time now h m.
Proof.
  destruct t. unfold same_time, Datetime.replace_date, at_time. simpl.
  intros [-> [-> [-> ->]]]. reflexivity.
Qed.

(** C1, as the code has it.  With any resolver that reads twelve-hour
    clock times, the text 2 to 4 yields 02:00 to 16:00 of the current day
    and the text 9:30-11 yields 09:30 to 23:00 of the current day, both in
    the target zone. *)
Theorem golden_cases parse off now :
  reads_clock parse ->
  extract_time_range_from_text parse off now "2 to 4"
  = Some (localize off (at_time now 2 0), localize off (at_time now 16 0))
  /\ extract_time_range_from_text parse off now "9:30-11"
     = Some (localize off (at_time now 9 30), localize off (at_time now 23 0)).
Proof.
  intros Hclock. unfold extract_time_range_from_text.
  change (Re.findall "2 to 4") with [("2", "4")].
  change (Re.findall "9:30-11") with [("9:30", "11")].
  rewrite !first_range_cons. unfold resolve.
  change (infer_am_pm (fst ("2", "4")) true) with "2am".
  change (infer_am_pm (snd ("2", "4")) false) with "4pm".
  change (infer_am_pm (fst ("9:30", "11")) true) with "9:30am".
  change (infer_am_pm (snd ("9:30", "11")) false) with "11pm".
  destruct (Hclock (Datetime.midnight now) "2am" (at_time now 2 0) eq_refl)
    as [t2 [-> H2]].
  destruct (Hclock (Datetime.midnight now) "4pm" (at_time now 16 0) eq_refl)
    as [t4 [-> H4]].
  destruct (Hclock (Datetime.midnight now) "9:30am" (at_time now 9 30) eq_refl)
    as [t9 [-> H9]].
  destruct (Hclock (Datetime.midnight now) "11pm" (at_time now 23 0) eq_refl)
    as [t11 [-> H11]].
  rewrite (replace_date_at_time _ _ _ _ H2), (replace_date_at_time _ _ _ _ H4),
    (replace_date_at_time _ _ _ _ H9), (replace_date_at_time _ _ _ _ H11).
  unfold Datetime.gt_naive, Datetime.compare_naive. simpl.
  rewrite !Z.compare_refl. split; reflexivity.
Qed.

Lemma golden_cases_witness :
  extract_time_range_from_text Clock12.parse edt may8 "2 to 4"
  = Some (local may8 2 0, local may8 16 0)
  /\ extract_time_range_from_text Clock12.parse edt may8 "9:30-11"
     = Some (local may8 9 30, local may8 23 0).
Proof.
  apply (golden_cases Clock12.parse edt may8).
  intros base s t H. exists t. repeat split. exact H.
Defined.

(** C1, as the claim states it, fails on both texts: on 8 May 2025 the
    parser returns neither 14:00 to 16:00 for 2 to 4 nor 09:30 to 11:00 for
    9:30-11. *)
Lemma golden_cases_not_afternoon :
  extract_time_range_from_text Clock12.parse edt may8 "2 to 4"
  <> Some (local may8 14 0, local may8 16 0)
  /\ extract_time_range_from_text Clock12.parse edt may8 "9:30-11"
     <> Some (local may8 9 30, local may8 11 0).
Proof. split; vm_compute; discriminate. Qed.

(** C3, as the code has it.  Every interval the parser returns has its
    start not after its end, both on the current day; its endpoints are
    those one candidate of the text resolved to, in the order written,
    never exchanged.  (A candidate whose start is after its end is never
    returned; one whose start equals its end is.) *)
Theorem returned_interval_ordered parse off now text s e :
  extract_time_range_from_text parse off now text = Some (s, e) ->
  Datetime.compare_naive (wall s) (wall e) <> Gt
  /\ (year (wall s), month (wall s), day (wall s))
     = (year now, month now, day now)
  /\ (year (wall e), month (wall e), day (wall e))
     = (year now, month now, day now)
  /\ exists c a b, In c (Re.findall text)
                   /\ resolve parse now c = Some (a, b)
                   /\ s = localize off a /\ e = localize off b.
Proof.
  intros H. apply first_range_sound in H as [c [a [b [Hin [Hr [Hgt [-> ->]]]]]]].
  destruct (resolve_same_day _ _ _ _ _ Hr) as [Ha Hb].
  repeat split; try assumption.
  - now apply gt_naive_compare.
  - exists c, a, b. auto.
Qed.

Lemma returned_interval_ordered_witness :
  Datetime.compare_naive (at_time may8 2 0) (at_time may8 16 0) <> Gt.
Proof.
  apply (returned_interval_ordered Clock12.parse edt may8 "2 to 4"
           (local may8 2 0) (local may8 16 0)).
  reflexivity.
Defined.

(** C3, as the claim states it, fails: 12 to 12 resolves to noon for both
    endpoints and the parser returns that interval, whose start is not
    strictly before its end. *)
Lemma equal_endpoints_returned :
  extract_time_range_from_text Clock12.parse edt may8 "12 to 12"
  = Some (local may8 12 0, local may8 12 0)
  /\ Datetime.compare_naive (wall (local may8 12 0)) (wall (local may8 12 0))
     <> Lt.
Proof. split; [reflexivity | vm_compute; discriminate]. Qed.

(** C4, as the code has it.  Candidates are tried in order of appearance;
    those with an endpoint that does not resolve are passed over; the first
    candidate whose two endpoints resolve decides the result alone: it is
    returned when its start is not after its end, and otherwise the parser
    returns nothing.  Candidates after it have no influence.  When no
    candidate resolves the parser returns nothing. *)
Theorem first_resolved_candidate_decides parse off now text :
  (forall skipped sr er later a b,
      Re.findall text = (skipped ++ (sr, er) :: later)%list ->
      Forall (fun c => resolve parse now c = None) skipped ->
      resolve parse now (sr, er) = Some (a, b) ->
      extract_time_range_from_text parse off now text
      = if Datetime.gt_naive a b then None
        else Some (localize off a, localize off b))
  /\ (Forall (fun c => resolve parse now c = None) (Re.findall text) ->
      extract_time_range_from_text parse off now text = None).
Proof.
  unfold extract_time_range_from_text. split.
  - intros skipped sr er later a b -> Hskip Hr.
    now rewrite (first_range_skip _ _ _ _ _ Hskip), first_range_cons, Hr.
  - intros Hall.
    rewrite <- (app_nil_r (Re.findall text)).
    now rewrite (first_range_skip _ _ _ _ _ Hall).
Qed.

Lemma first_resolved_candidate_decides_witness :
  extract_time_range_from_text Clock12.parse edt may8 "0-1 2-3 4-5"
  = Some (local may8 2 0, local may8 15 0)
  /\ extract_time_range_from_text Clock12.parse edt may8 "no digits" = None.
Proof.
  split.
  - apply (proj1 (first_resolved_candidate_decides Clock12.parse edt may8
                    "0-1 2-3 4-5")
             [("0", "1")] "2" "3" [("4", "5")]
             (at_time may8 2 0) (at_time may8 15 0)).
    + reflexivity.
    + repeat constructor.
    + reflexivity.
  - apply (proj2 (first_resolved_candidate_decides Clock12.parse edt may8
                    "no digits")).
    constructor.
Defined.

(** C4, as the claim states it, fails: in this text the second candidate,
    2-3, parses into a valid interval on its own, but the first candidate,
    12:30-12, resolves with its start after its end and the parser returns
    nothing. *)
Lemma later_valid_candidate_lost :
  Re.findall "12:30-12 2-3" = [("12:30", "12"); ("2", "3")]
  /\ extract_time_range_from_text Clock12.parse edt may8 "2-3"
     = Some (local may8 2 0, local may8 15 0)
  /\ extract_time_range_from_text Clock12.parse edt may8 "12:30-12 2-3"
     = None.
Proof. repeat split; reflexivity. Qed.

(** ** Availability checker *)

Lemma lt_aware (a b : datetime) :
  aware a -> aware b -> exists r, Cmp.lt a b = Ok r.
Proof.
  unfold aware, Cmp.lt, Cmp.cmp. intros Ha Hb.
  destruct (tzinfo a); [|congruence]. destruct (tzinfo b); [|congruence].
  destruct (_ =? _); [destruct (Datetime.compare_naive _ _)
                     | destruct (_ ?= _)]; eauto.
Qed.

Lemma gt_aware (a b : datetime) :
  aware a -> aware b -> exists r, Cmp.gt a b = Ok r.
Proof.
  unfold aware, Cmp.gt, Cmp.cmp. intros Ha Hb.
  destruct (tzinfo a); [|congruence]. destruct (tzinfo b); [|congruence].
  destruct (_ =? _); [destruct (Datetime.compare_naive _ _)
                     | destruct (_ ?= _)]; eauto.
Qed.

Lemma conflicts_stamps s e ev es ee :
  event_stamp (start ev) = Some es -> event_stamp (end_ ev) = Some ee ->
  conflicts s e ev -> Cmp.lt s ee = Ok true /\ Cmp.gt e es = Ok true.
Proof.
  intros Hs He [es' [ee' [Hs' [He' [Hlt Hgt]]]]].
  rewrite Hs in Hs'. rewrite He in He'.
  injection Hs' as <-. injection He' as <-. auto.
Qed.

(** On zoned data the loop always answers, and answers busy exactly when
    some event passes the overlap test. *)
Lemma check_events_decides s e events :
  aware s -> aware e -> Forall stamps_aware events ->
  (check_events s e events = Ok false /\ Exists (conflicts s e) events)
  \/ (check_events s e events = Ok true
      /\ Forall (fun ev => ~ conflicts s e ev) events).
Proof.
  intros Hs He. induction 1 as [|ev later Hev _ IH].
  - right. split; [reflexivity | constructor].
  - assert (Hrest :
      ~ conflicts s e ev ->
      check_events s e (ev :: later) = check_events s e later ->
      (check_events s e (ev :: later) = Ok false
       /\ Exists (conflicts s e) (ev :: later))
      \/ (check_events s e (ev :: later) = Ok true
          /\ Forall (fun ev => ~ conflicts s e ev) (ev :: later))).
    { intros Hno ->. destruct IH as [[Hc Hex]|[Hc Hall]].
      - left. split; [exact Hc | now apply Exists_cons_tl].
      - right. split; [exact Hc | now constructor]. }
    destruct (event_stamp (start ev)) as [es|] eqn:Hes.
    2:{ apply Hrest; [|simpl; now rewrite Hes].
        intros [x [y [Hx _]]]. congruence. }
    destruct (event_stamp (end_ ev)) as [ee|] eqn:Hee.
    2:{ apply Hrest; [|simpl; now rewrite Hes, Hee].
        intros [x [y [_ [Hy _]]]]. congruence. }
    destruct (lt_aware s ee Hs (Hev ee (or_intror Hee))) as [r Hlt].
    destruct (gt_aware e es He (Hev es (or_introl Hes))) as [r' Hgt].
    destruct r; [destruct r'|].
    + left. split; [simpl; now rewrite Hes, Hee, Hlt, Hgt|].
      apply Exists_cons_hd. exists es, ee. auto.
    + apply Hrest; [|simpl; now rewrite Hes, Hee, Hlt, Hgt].
      intros Hc. destruct (conflicts_stamps _ _ _ _ _ Hes Hee Hc).
      congruence.
    + apply Hrest; [|simpl; now rewrite Hes, Hee, Hlt].
      intros Hc. destruct (conflicts_stamps _ _ _ _ _ Hes Hee Hc).
      congruence.
Qed.


Lemma timed_event_stamps_aware now h1 m1 h2 m2 :
  stamps_aware (timed_event now h1 m1 h2 m2).
Proof.
  intros t [H|H]; simpl in H; injection H as <-; discriminate.
Qed.


(** C10. The check is not total on what the calendar returns: when the
    first event is an all-day event (a date and no dateTime at either end),
    its end is read as a naive datetime, the comparison with the zoned
    start of the candidate raises TypeError, and the check ends with that
    error whatever follows in the list; the event is not skipped. *)
Theorem all_day_event_raises w1 o1 w2 o2 d1 d2 title later :
  check_availability (Ok (all_day_event d1 d2 title :: later))
    (mk_datetime w1 (Some o1)) (mk_datetime w2 (Some o2))
  = Raise TypeError.
Proof. destruct d1 as [[? ?] ?], d2 as [[? ?] ?]. reflexivity. Qed.

(** ** Orchestrator *)

Section Runs.

Variable nlp : string -> Doc.
Variable parse : naive -> string -> option naive.
Variable off : naive -> Z.

Local Abbreviation pass := (cycle nlp parse off).
Local Abbreviation run := (main_loop nlp parse off).
Local Abbreviation extract := (extract_time_range_from_text parse off).

(** The six ways one pass of the loop can go. *)
Lemma cycle_shape (c : Cycle) :
  pass c = ([Sleep 10], Continue)
  \/ (exists s e, pass c = ([ListEvents s e; Sleep 10], Continue))
  \/ (exists s e x, pass c = ([ListEvents s e], Abort x))
  \/ (exists s e x, pass c = ([ListEvents s e; Reply reply_text], Abort x))
  \/ (exists s e x,
         pass c = ([ListEvents s e; Reply reply_text;
                     InsertEvent event_title s e], Abort x))
  \/ (exists s e,
         pass c = ([ListEvents s e; Reply reply_text;
                     InsertEvent event_title s e], Break)).
Proof.
  unfold cycle.
  destruct (message_indicates_cancellation _ _); [|auto].
  destruct (extract_time_range_from_text _ _ _ _) as [[s e]|]; [|auto].
  destruct (check_availability _ _ _) as [[|]|x].
  - destruct (typing c) as [[]|x].
    + destruct (insertion c) as [[]|x].
      * do 5 right. eauto.
      * do 4 right. left. eauto.
    + do 3 right. left. eauto.
  - right. left. eauto.
  - do 2 right. left. eauto.
Qed.

(** A pass that continues has neither replied nor booked; no pass replies
    or books more than once. *)
Lemma cycle_counts (c : Cycle) :
  (replies (fst (pass c)) <= 1)%nat /\ (inserts (fst (pass c)) <= 1)%nat
  /\ (snd (pass c) = Continue ->
      replies (fst (pass c)) = 0%nat /\ inserts (fst (pass c)) = 0%nat).
Proof.
  destruct (cycle_shape c)
    as [H|[[s [e H]]|[[s [e [x H]]]|[[s [e [x H]]]|[[s [e [x H]]]|[s [e H]]]]]]];
    rewrite H; unfold replies, inserts; simpl;
    repeat split; try lia; try discriminate.
Qed.

Lemma main_loop_cons (c : Cycle) (later : list Cycle) :
  run (c :: later) =
  match snd (pass c) with
  | Continue => ((fst (pass c) ++ fst (run later))%list,
                 snd (run later))
  | Break => (fst (pass c), Exited)
  | Abort x => (fst (pass c), Crashed x)
  end.
Proof.
  simpl. destruct (pass c) as [tr [| |x]]; simpl; try reflexivity.
  now destruct (run later).
Qed.

(** While the loop is still polling, the run goes on with the next cycles. *)
Lemma main_loop_app (before rest : list Cycle) :
  snd (run before) = Polling ->
  run (before ++ rest)
  = ((fst (run before) ++ fst (run rest))%list,
     snd (run rest)).
Proof.
  induction before as [|c before IH].
  - intros _. simpl. now destruct (run rest).
  - rewrite <- app_comm_cons, !main_loop_cons.
    destruct (snd (pass c)); simpl; try discriminate.
    intros H. rewrite (IH H). simpl. now rewrite app_assoc.
Qed.

Lemma replies_app (a b : list action) :
  replies (a ++ b) = (replies a + replies b)%nat.
Proof. unfold replies. now rewrite filter_app, length_app. Qed.

Lemma inserts_app (a b : list action) :
  inserts (a ++ b) = (inserts a + inserts b)%nat.
Proof. unfold inserts. now rewrite filter_app, length_app. Qed.

(** A run never replies twice nor books twice, and one that is still
    polling has done neither. *)
Lemma main_loop_counts (cycles : list Cycle) :
  (replies (fst (run cycles)) <= 1)%nat
  /\ (inserts (fst (run cycles)) <= 1)%nat
  /\ (snd (run cycles) = Polling ->
      replies (fst (run cycles)) = 0%nat
      /\ inserts (fst (run cycles)) = 0%nat).
Proof.
  induction cycles as [|c later IH].
  - simpl. unfold replies, inserts. simpl. repeat split; lia.
  - rewrite main_loop_cons.
    destruct (cycle_counts c) as [Hr [Hi Hc]].
    destruct (snd (pass c)) eqn:Hs; simpl.
    + destruct (Hc eq_refl) as [Hr0 Hi0].
      rewrite replies_app, inserts_app, Hr0, Hi0. simpl. exact IH.
    + repeat split; try assumption; discriminate.
    + repeat split; try assumption; discriminate.
Qed.

(** C8, as the code has it.  When a cycle reaches the calendar query and
    the query fails, with whatever error, the error leaves [main_loop]:
    the run ends with it, that cycle sends no reply and creates no entry,
    and no later cycle runs.  The code has no handler around the query and
    draws no line between authorization errors and others. *)
Theorem fetch_failure_ends_run before c after s e x :
  snd (run before) = Polling ->
  message_indicates_cancellation nlp (read_whatsapp (screen c)) = true ->
  extract (clock c) (read_whatsapp (screen c)) = Some (s, e) ->
  listing c = Raise x ->
  run (before ++ c :: after)
  = ((fst (run before) ++ [ListEvents s e])%list, Crashed x)
  /\ replies (fst (run (before ++ c :: after))) = 0%nat
  /\ inserts (fst (run (before ++ c :: after))) = 0%nat.
Proof.
  intros Hb Hm He Hl.
  assert (Hc : pass c = ([ListEvents s e], Abort x)).
  { unfold cycle. now rewrite Hm, He, Hl. }
  assert (Hrun : run (before ++ c :: after)
                 = ((fst (run before) ++ [ListEvents s e])%list,
                    Crashed x)).
  { rewrite (main_loop_app _ _ Hb), main_loop_cons, Hc. reflexivity. }
  split; [exact Hrun|]. rewrite Hrun. simpl.
  destruct (main_loop_counts before) as [_ [_ H0]].
  destruct (H0 Hb) as [Hr0 Hi0].
  rewrite replies_app, inserts_app, Hr0, Hi0. split; reflexivity.
Qed.

(** C9, as the code has it.  In any run the trace holds at most one reply
    and at most one created entry, and a run that has replied is no longer
    polling.  When a cycle decides free and the two calls return, the run up to that cycle
    had sent and created nothing, that cycle sends the reply and then
    creates the entry for exactly the extracted interval, and the run ends
    there: the cycles after it never run. *)
Theorem single_handoff :
  (forall cycles,
      (replies (fst (run cycles)) <= 1)%nat
      /\ (inserts (fst (run cycles)) <= 1)%nat
      /\ (replies (fst (run cycles)) = 1%nat ->
          snd (run cycles) <> Polling))
  /\ (forall before c after s e,
         snd (run before) = Polling ->
         message_indicates_cancellation nlp (read_whatsapp (screen c)) = true ->
         extract (clock c) (read_whatsapp (screen c)) = Some (s, e) ->
         check_availability (listing c) s e = Ok true ->
         typing c = Ok tt -> insertion c = Ok tt ->
         run (before ++ c :: after)
         = ((fst (run before)
             ++ [ListEvents s e; Reply reply_text;
                 InsertEvent event_title s e])%list, Exited)
         /\ replies (fst (run before)) = 0%nat
         /\ inserts (fst (run before)) = 0%nat
         /\ replies (fst (run (before ++ c :: after))) = 1%nat
         /\ inserts (fst (run (before ++ c :: after))) = 1%nat).
Proof.
  split.
  - intros cycles. destruct (main_loop_counts cycles) as [Hr [Hi H0]].
    repeat split; try assumption.
    intros H1 Hp. destruct (H0 Hp) as [Hr0 _]. congruence.
  - intros before c after s e Hb Hm He Hf Ht Hi.
    assert (Hc : pass c = ([ListEvents s e; Reply reply_text;
                             InsertEvent event_title s e], Break)).
    { unfold cycle. now rewrite Hm, He, Hf, Ht, Hi. }
    assert (Hrun : run (before ++ c :: after)
                   = ((fst (run before)
                       ++ [ListEvents s e; Reply reply_text;
                           InsertEvent event_title s e])%list, Exited)).
    { rewrite (main_loop_app _ _ Hb), main_loop_cons, Hc. reflexivity. }
    destruct (main_loop_counts before) as [_ [_ H0]].
    destruct (H0 Hb) as [Hr0 Hi0].
    split; [exact Hrun|]. rewrite Hrun. simpl.
    rewrite replies_app, inserts_app, Hr0, Hi0. repeat split.
Qed.

End Runs.

Lemma fetch_failure_ends_run_witness :
  main_loop sample_nlp Clock12.parse edt
    ([quiet_cycle] ++ cancellation_cycle (Raise (HttpError 401))
                   :: [quiet_cycle])
  = (([Sleep 10] ++ [ListEvents (local may8 2 0) (local may8 16 0)])%list,
     Crashed (HttpError 401)).
Proof.
  apply (fetch_failure_ends_run sample_nlp Clock12.parse edt
           [quiet_cycle] (cancellation_cycle (Raise (HttpError 401)))
           [quiet_cycle] (local may8 2 0) (local may8 16 0) (HttpError 401));
    reflexivity.
Defined.

(** C8, as the claim states it, fails: the calendar answers 503, which is
    no authorization problem, and the run ends with that error instead of
    going on to the next cycle. *)
Lemma outage_ends_run :
  main_loop sample_nlp Clock12.parse edt
    [cancellation_cycle (Raise (HttpError 503)); quiet_cycle]
  = ([ListEvents (local may8 2 0) (local may8 16 0)],
     Crashed (HttpError 503)).
Proof. reflexivity. Qed.

(** C9, as the claim states it, fails: this cycle reaches a free decision
    and the reply call raises; one reply is attempted, no entry is created,
    and the run ends with the error. *)
Lemma raising_reply_books_nothing :
  check_availability (listing (free_cycle (Raise FailSafeException) (Ok tt)))
    (local may8 2 0) (local may8 16 0) = Ok true
  /\ main_loop sample_nlp Clock12.parse edt
       [free_cycle (Raise FailSafeException) (Ok tt); quiet_cycle]
     = ([ListEvents (local may8 2 0) (local may8 16 0); Reply reply_text],
        Crashed FailSafeException)
  /\ inserts (fst (main_loop sample_nlp Clock12.parse edt
                     [free_cycle (Raise FailSafeException) (Ok tt);
                      quiet_cycle])) = 0%nat.
Proof. repeat split; reflexivity. Qed.

Lemma single_handoff_witness :
  main_loop sample_nlp Clock12.parse edt
    ([quiet_cycle; cancellation_cycle (Ok [timed_event may8 15 0 15 30])]
       ++ cancellation_cycle (Ok [timed_event may8 16 0 17 0])
       :: [cancellation_cycle (Ok [])])
  = (([Sleep 10; ListEvents (local may8 2 0) (local may8 16 0); Sleep 10]
        ++ [ListEvents (local may8 2 0) (local may8 16 0); Reply reply_text;
            InsertEvent event_title (local may8 2 0) (local may8 16 0)])%list,
     Exited).
Proof.
  apply (proj2 (single_handoff sample_nlp Clock12.parse edt)
           [quiet_cycle; cancellation_cycle (Ok [timed_event may8 15 0 15 30])]
           (cancellation_cycle (Ok [timed_event may8 16 0 17 0]))
           [cancellation_cycle (Ok [])]
           (local may8 2 0) (local may8 16 0));
    reflexivity.
Defined.

(** ** Worked examples *)

Example findall_two_ranges :
  Re.findall "9:30-11 and 2 TO 4" = [("9:30", "11"); ("2", "4")].
Proof. reflexivity. Qed.

Example findall_three_digits : Re.findall "123-4" = [("23", "4")].
Proof. reflexivity. Qed.

Example findall_lone_minute : Re.findall "1:2-3" = [("2", "3")].
Proof. reflexivity. Qed.

Example infer_start : infer_am_pm "11:45" true = "11:45am".
Proof. reflexivity. Qed.

Example infer_start_noon : infer_am_pm "12" true = "12pm".
Proof. reflexivity. Qed.

Example infer_end : infer_am_pm "8" false = "8pm".
Proof. reflexivity. Qed.

Example int_signed : PyStr.int " +1_2 " = Some 12.
Proof. reflexivity. Qed.

Example int_marked : PyStr.int "5pm" = None.
Proof. reflexivity. Qed.

Example conflict_keeps_polling :
  main_loop sample_nlp Clock12.parse edt
    [cancellation_cycle (Ok [timed_event may8 15 0 15 30])]
  = ([ListEvents (local may8 2 0) (local may8 16 0); Sleep 10], Polling).
Proof. reflexivity. Qed.

Example all_day_event_ends_run :
  main_loop sample_nlp Clock12.parse edt
    [cancellation_cycle (Ok [all_day_event (2025, 5, 8) (2025, 5, 9) None]);
     quiet_cycle]
  = ([ListEvents (local may8 2 0) (local may8 16 0)], Crashed TypeError).
Proof. reflexivity. Qed.

(** * Further properties *)

(** ** The pattern *)

Lemma digits12_shape s d r :
  In (d, r) (Re.digits12 s) ->
  s = d ++ r
  /\ ((exists a, d = String a "" /\ PyStr.is_digit a = true)
      \/ (exists a b, d = String a (String b "")
                      /\ PyStr.is_digit a = true /\ PyStr.is_digit b = true)).
Proof.
  destruct s as [|a [|b s']]; simpl; [tauto| |];
    destruct (PyStr.is_digit a) eqn:Ha; simpl; try tauto.
  - intros [H|[]]. injection H as <- <-. split; [reflexivity|]. left. eauto.
  - destruct (PyStr.is_digit b) eqn:Hb; simpl.
    + intros [H|[H|[]]]; injection H as <- <-; (split; [reflexivity|]).
      * right. eauto.
      * left. eauto.
    + intros [H|[]]. injection H as <- <-. split; [reflexivity|]. left. eauto.
Qed.

Lemma minutes_opt_shape s m r :
  In (m, r) (Re.minutes_opt s) -> s = m ++ r /\ is_minutes m = true.
Proof.
  assert (Hnone : In (m, r) [("", s)] -> s = m ++ r /\ is_minutes m = true).
  { intros [H|[]]. injection H as <- <-. split; reflexivity. }
  destruct s as [|c s1]; [exact Hnone|].
  destruct c as [[] [] [] [] [] [] [] []]; try exact Hnone.
  destruct s1 as [|x [|y r']]; try exact Hnone.
  simpl. destruct (PyStr.is_digit x) eqn:Hx; [|exact Hnone].
  destruct (PyStr.is_digit y) eqn:Hy; [|exact Hnone].
  simpl. intros [H|H]; [|exact (Hnone H)].
  injection H as <- <-. split; [reflexivity|]. simpl. now rewrite Hx, Hy.
Qed.

Lemma time_token_shape s t r :
  In (t, r) (Re.time_token s) -> s = t ++ r /\ is_time_token t = true.
Proof.
  unfold Re.time_token. rewrite in_flat_map.
  intros [[d r1] [Hd Hm]]. apply in_map_iff in Hm as [[m r2] [Heq Hm]].
  injection Heq as <- <-.
  apply digits12_shape in Hd as [-> Hd].
  apply minutes_opt_shape in Hm as [-> Hm].
  split; [now rewrite append_assoc|].
  destruct Hd as [[a [-> Ha]]|[a [b [-> [Ha Hb]]]]]; simpl.
  - now rewrite Ha, Hm.
  - rewrite Ha, Hb, Hm. simpl. now rewrite orb_true_r.
Qed.

Lemma matches_here_shape s g1 g2 rest :
  In (g1, g2, rest) (Re.matches_here s) ->
  is_time_token g1 = true /\ is_time_token g2 = true.
Proof.
  unfold Re.matches_here. rewrite in_flat_map.
  intros [[t1 r1] [H1 H]].
  apply in_flat_map in H as [r2 [_ H]].
  apply in_flat_map in H as [r3 [_ H]].
  apply in_flat_map in H as [r4 [_ H]].
  apply in_map_iff in H as [[t2 r5] [Heq H2]].
  injection Heq as <- <- <-.
  apply time_token_shape in H1 as [_ H1].
  apply time_token_shape in H2 as [_ H2]. auto.
Qed.

Lemma match_here_shape s g1 g2 rest :
  Re.match_here s = Some (g1, g2, rest) ->
  is_time_token g1 = true /\ is_time_token g2 = true.
Proof.
  unfold Re.match_here. intros H.
  apply (matches_here_shape s g1 g2 rest).
  destruct (Re.matches_here s) as [|x l]; [discriminate|].
  injection H as ->. now left.
Qed.

Lemma findall_from_shape s : forall skip g1 g2,
  In (g1, g2) (Re.findall_from skip s) ->
  is_time_token g1 = true /\ is_time_token g2 = true.
Proof.
  induction s as [|c r IH]; intros skip g1 g2; simpl; [tauto|].
  destruct skip as [|k]; [|apply IH].
  destruct (Re.match_here (String c r)) as [[[h1 h2] rest]|] eqn:Hm;
    [|apply IH].
  intros [H|H]; [|exact (IH _ _ _ H)].
  injection H as <- <-. exact (match_here_shape _ _ _ _ Hm).
Qed.

Lemma findall_from_digitless s : forall skip,
  digitless s = true -> Re.findall_from skip s = [].
Proof.
  induction s as [|c r IH]; intros skip; simpl; [reflexivity|].
  intros H. apply andb_true_iff in H as [Hc Hr].
  destruct skip as [|k]; [|now apply IH].
  assert (Hm : Re.match_here (String c r) = None).
  { unfold Re.match_here, Re.matches_here, Re.time_token.
    assert (Hd : Re.digits12 (String c r) = []).
    { simpl. apply negb_true_iff in Hc. rewrite Hc. now destruct r. }
    now rewrite Hd. }
  rewrite Hm. now apply IH.
Qed.

Lemma is_digit_enum (c : ascii) :
  PyStr.is_digit c = true -> In c digit_chars.
Proof.
  destruct c as [[] [] [] [] [] [] [] []]; intros H;
    try discriminate H; simpl; tauto.
Qed.

Lemma is_minutes_enum (m : string) :
  is_minutes m = true -> In m minute_parts.
Proof.
  destruct m as [|c [|x [|y [|z m']]]]; intros H; try discriminate H.
  - now left.
  - simpl in H. apply andb_true_iff in H as [H Hy].
    apply andb_true_iff in H as [Hc Hx].
    apply Ascii.eqb_eq in Hc as ->. apply in_cons.
    apply in_flat_map. exists x. split; [now apply is_digit_enum|].
    apply in_map_iff. exists y. split; [reflexivity | now apply is_digit_enum].
Qed.

Lemma is_time_token_enum (t : string) :
  is_time_token t = true -> In t all_tokens.
Proof.
  destruct t as [|a r]; intros H; [discriminate H|].
  unfold is_time_token in H. apply andb_true_iff in H as [Ha H].
  apply is_digit_enum in Ha.
  unfold all_tokens. apply in_flat_map.
  apply orb_true_iff in H as [Hm|H].
  - exists (String a ""). split.
    + unfold hour_parts. apply in_flat_map. exists a.
      split; [exact Ha | apply in_eq].
    + apply in_map_iff. exists r.
      split; [reflexivity | now apply is_minutes_enum].
  - destruct r as [|b r']; [discriminate|].
    apply andb_true_iff in H as [Hb Hm]. apply is_digit_enum in Hb.
    exists (String a (String b "")). split.
    + unfold hour_parts. apply in_flat_map. exists a. split; [exact Ha|].
      apply in_cons, in_map_iff. exists b. auto.
    + apply in_map_iff. exists r'.
      split; [reflexivity | now apply is_minutes_enum].
Qed.

Lemma all_tokens_checked : forallb infer_checked all_tokens = true.
Proof. vm_compute. reflexivity. Qed.

Lemma time_token_inference (t : string) :
  is_time_token t = true ->
  exists h, token_hour t = Some h /\ 0 <= h <= 99
            /\ infer_am_pm t true = t ++ inferred_marker true h
            /\ infer_am_pm t false = t ++ "pm".
Proof.
  intros Ht. apply is_time_token_enum in Ht.
  pose proof (proj1 (forallb_forall _ _) all_tokens_checked t Ht) as H.
  unfold infer_checked in H. destruct (token_hour t) as [h|]; [|discriminate].
  exists h. rewrite !andb_true_iff in H.
  destruct H as [[[H0 H99] Hs] He].
  apply String.eqb_eq in Hs, He. repeat split; try assumption; lia.
Qed.

(** X2. An ASCII text without any digit has no candidate, so the parser
    returns nothing for it, whatever the resolver, the zone and the
    clock. *)
Theorem no_digit_no_interval parse off now text :
  is_ascii text = true ->
  digitless text = true ->
  Re.findall text = []
  /\ extract_time_range_from_text parse off now text = None.
Proof.
  intros _ H. unfold extract_time_range_from_text, Re.findall.
  now rewrite (findall_from_digitless text 0%nat H).
Qed.

Lemma no_digit_no_interval_witness :
  extract_time_range_from_text Clock12.parse edt may8
    "I need to cancel my office hours this afternoon" = None.
Proof.
  apply (no_digit_no_interval Clock12.parse edt may8
           "I need to cancel my office hours this afternoon");
    reflexivity.
Defined.

(** X3. On the tokens the pattern captures in an ASCII text,
    [infer_am_pm] always appends a marker: the hour always converts (it is
    between 0 and 99), the end token always gets pm, and the start token
    gets am exactly when its hour is from 1 to 11 and pm otherwise.  The
    branches that return the token unchanged are never taken for a captured
    token. *)
Theorem candidates_get_inferred_markers text start_raw end_raw :
  is_ascii text = true ->
  In (start_raw, end_raw) (Re.findall text) ->
  infer_am_pm end_raw false = end_raw ++ "pm"
  /\ exists h, token_hour start_raw = Some h /\ 0 <= h <= 99
               /\ infer_am_pm start_raw true
                  = start_raw ++ inferred_marker true h.
Proof.
  intros _ H. apply findall_from_shape in H as [Hs He].
  destruct (time_token_inference _ He) as [h' [_ [_ [_ Hend]]]].
  destruct (time_token_inference _ Hs) as [h [Hh [Hr [Hstart _]]]].
  split; [exact Hend|]. exists h. auto.
Qed.

Lemma candidates_get_inferred_markers_witness :
  infer_am_pm "11" false = "11" ++ "pm"
  /\ exists h, token_hour "9:30" = Some h /\ 0 <= h <= 99
               /\ infer_am_pm "9:30" true = "9:30" ++ inferred_marker true h.
Proof.
  apply (candidates_get_inferred_markers "shift 9:30-11 today" "9:30" "11").
  - reflexivity.
  - simpl. tauto.
Defined.






Lemma same_date_midnight now now' :
  same_date now now' -> Datetime.midnight now = Datetime.midnight now'.
Proof.
  unfold same_date, Datetime.midnight. intros [-> [-> ->]]. reflexivity.
Qed.

Lemma same_date_replace dt now now' :
  same_date now now' ->
  Datetime.replace_date dt now = Datetime.replace_date dt now'.
Proof.
  unfold same_date, Datetime.replace_date. intros [-> [-> ->]]. reflexivity.
Qed.

(** X4. The parser uses the clock only for its date: two calls on the
    same text at two moments of the same day return the same result. *)
Theorem interval_depends_on_date_only parse off now now' text :
  same_date now now' ->
  extract_time_range_from_text parse off now text
  = extract_time_range_from_text parse off now' text.
Proof.
  intros H. unfold extract_time_range_from_text.
  induction (Re.findall text) as [|c later IH]; [reflexivity|].
  rewrite !first_range_cons. unfold resolve.
  rewrite (same_date_midnight _ _ H).
  destruct (parse _ _) as [a|]; [|exact IH].
  destruct (parse _ _) as [b|]; [|exact IH].
  now rewrite !(same_date_replace _ _ _ H).
Qed.

Lemma interval_depends_on_date_only_witness :
  extract_time_range_from_text Clock12.parse edt may8 "2 to 4"
  = extract_time_range_from_text Clock12.parse edt
      (mk_naive 2025 5 8 23 59 59 999999) "2 to 4".
Proof.
  apply (interval_depends_on_date_only Clock12.parse edt may8
           (mk_naive 2025 5 8 23 59 59 999999) "2 to 4").
  repeat split.
Defined.

Lemma extracted_aware parse off now text s e :
  extract_time_range_from_text parse off now text = Some (s, e) ->
  aware s /\ aware e.
Proof.
  intros H. apply first_range_sound in H
    as [c [a [b [_ [_ [_ [-> ->]]]]]]].
  split; discriminate.
Qed.

(** X6. The parser and the checker fit together: an interval returned by
    the parser has zoned endpoints, so checking it against events whose
    timestamps are zoned always gives an answer and never raises. *)
Theorem extracted_interval_checks_cleanly parse off now text s e events :
  extract_time_range_from_text parse off now text = Some (s, e) ->
  Forall stamps_aware events ->
  exists free, check_availability (Ok events) s e = Ok free.
Proof.
  intros H Hall. destruct (extracted_aware _ _ _ _ _ _ H) as [Hs He].
  simpl. destruct (check_events_decides s e events Hs He Hall)
    as [[Hc _]|[Hc _]]; rewrite Hc; eauto.
Qed.

Lemma extracted_interval_checks_cleanly_witness :
  exists free,
    check_availability (Ok [timed_event may8 15 0 15 30])
      (local may8 2 0) (local may8 16 0) = Ok free.
Proof.
  apply (extracted_interval_checks_cleanly Clock12.parse edt may8 "2 to 4"
           (local may8 2 0) (local may8 16 0) [timed_event may8 15 0 15 30]).
  - reflexivity.
  - repeat constructor. apply timed_event_stamps_aware.
Defined.

(** X7. Events that lack a timestamp at either end (neither dateTime nor
    date) have no effect on the check: dropping them from the list leaves
    the result, answer or error, unchanged. *)
Theorem unstamped_events_are_skipped s e events :
  check_events s e events = check_events s e (filter has_stamps events).
Proof.
  induction events as [|ev later IH]; [reflexivity|].
  simpl. unfold has_stamps.
  destruct (event_stamp (start ev)) as [es|] eqn:Hs; [|exact IH].
  destruct (event_stamp (end_ ev)) as [ee|] eqn:He; [|exact IH].
  simpl. rewrite Hs, He, IH. reflexivity.
Qed.

Lemma check_events_pass s e ev later :
  aware s -> aware e -> stamps_aware ev -> ~ conflicts s e ev ->
  check_events s e (ev :: later) = check_events s e later.
Proof.
  intros Hs He Hev Hno. simpl.
  destruct (event_stamp (start ev)) as [es|] eqn:Hes; [|reflexivity].
  destruct (event_stamp (end_ ev)) as [ee|] eqn:Hee; [|reflexivity].
  destruct (lt_aware s ee Hs (Hev ee (or_intror Hee))) as [r Hlt].
  destruct (gt_aware e es He (Hev es (or_introl Hes))) as [r' Hgt].
  rewrite Hlt. destruct r; [|reflexivity].
  rewrite Hgt. destruct r'; [|reflexivity].
  exfalso. apply Hno. exists es, ee. auto.
Qed.

Lemma check_events_hit s e ev later :
  conflicts s e ev -> check_events s e (ev :: later) = Ok false.
Proof.
  intros [es [ee [Hes [Hee [Hlt Hgt]]]]]. simpl.
  now rewrite Hes, Hee, Hlt, Hgt.
Qed.

(** X8. The check stops at the first conflict: when the events before it
    are zoned and conflict-free, a conflicting event makes the answer busy
    whatever comes after it in the list, including events that would make
    the comparison raise. *)
Theorem first_conflict_ends_check s e before ev later :
  aware s -> aware e -> Forall stamps_aware before ->
  Forall (fun b => ~ conflicts s e b) before ->
  conflicts s e ev ->
  check_availability (Ok (before ++ ev :: later)%list) s e = Ok false.
Proof.
  intros Hs He Hz Hno Hc. simpl.
  induction before as [|b before IH]; simpl app.
  - now apply check_events_hit.
  - inversion Hz; inversion Hno; subst.
    rewrite check_events_pass by assumption. now apply IH.
Qed.

Lemma first_conflict_ends_check_witness :
  check_availability
    (Ok ([timed_event may8 16 0 17 0]
           ++ timed_event may8 15 0 15 30
           :: [all_day_event (2025, 5, 8) (2025, 5, 9) None])%list)
    (local may8 14 0) (local may8 16 0) = Ok false.
Proof.
  apply (first_conflict_ends_check (local may8 14 0) (local may8 16 0)
           [timed_event may8 16 0 17 0] (timed_event may8 15 0 15 30)
           [all_day_event (2025, 5, 8) (2025, 5, 9) None]).
  - discriminate.
  - discriminate.
  - repeat constructor. apply timed_event_stamps_aware.
  - repeat constructor. intros Hc.
    destruct (conflicts_stamps (local may8 14 0) (local may8 16 0)
                (timed_event may8 16 0 17 0)
                (local may8 16 0) (local may8 17 0)
                eq_refl eq_refl Hc) as [_ H].
    discriminate H.
  - exists (local may8 15 0), (local may8 15 30). repeat split.
Defined.

(** X9. On a zoned candidate and events with zoned timestamps the answer
    does not depend on the order in which the calendar lists the events. *)
Theorem check_ignores_order s e events events' :
  aware s -> aware e -> Forall stamps_aware events ->
  Permutation events events' ->
  check_availability (Ok events) s e = check_availability (Ok events') s e.
Proof.
  intros Hs He Hz Hp. simpl.
  assert (Hz' : Forall stamps_aware events')
    by (eapply Permutation_Forall; eassumption).
  destruct (check_events_decides s e events Hs He Hz) as [[Hc Hex]|[Hc Hno]];
    destruct (check_events_decides s e events' Hs He Hz')
      as [[Hc' Hex']|[Hc' Hno']];
    rewrite Hc, Hc'; try reflexivity; exfalso.
  - apply Exists_exists in Hex as [ev [Hin Hcf]].
    rewrite Forall_forall in Hno'.
    exact (Hno' ev (Permutation_in _ Hp Hin) Hcf).
  - apply Exists_exists in Hex' as [ev [Hin Hcf]].
    rewrite Forall_forall in Hno.
    exact (Hno ev (Permutation_in _ (Permutation_sym Hp) Hin) Hcf).
Qed.

Lemma check_ignores_order_witness :
  check_availability
    (Ok [timed_event may8 16 0 17 0; timed_event may8 15 0 15 30])
    (local may8 14 0) (local may8 16 0)
  = check_availability
      (Ok [timed_event may8 15 0 15 30; timed_event may8 16 0 17 0])
      (local may8 14 0) (local may8 16 0).
Proof.
  apply (check_ignores_order (local may8 14 0) (local may8 16 0)
           [timed_event may8 16 0 17 0; timed_event may8 15 0 15 30]
           [timed_event may8 15 0 15 30; timed_event may8 16 0 17 0]).
  - discriminate.
  - discriminate.
  - repeat constructor; apply timed_event_stamps_aware.
  - apply perm_swap.
Defined.

Lemma lex_compare_refl (l : list Z) : Datetime.lex_compare l l = Eq.
Proof.
  induction l as [|x l IH]; simpl; [reflexivity|].
  now rewrite Z.compare_refl.
Qed.

Lemma cmp_refl (d : datetime) : aware d -> Cmp.cmp d d = Ok Eq.
Proof.
  unfold aware, Cmp.cmp. destruct (tzinfo d) as [o|]; [|congruence].
  intros _. rewrite Z.eqb_refl. unfold Datetime.compare_naive.
  now rewrite lex_compare_refl.
Qed.

(** X10. An event that starts exactly when the candidate ends, or ends
    exactly when the candidate starts, does not conflict: alone on the
    calendar it leaves the candidate free. *)
Theorem touching_event_is_free s e ev :
  aware s -> aware e -> stamps_aware ev ->
  event_stamp (start ev) = Some e \/ event_stamp (end_ ev) = Some s ->
  ~ conflicts s e ev /\ check_availability (Ok [ev]) s e = Ok true.
Proof.
  intros Hs He Hz Htouch.
  assert (Hno : ~ conflicts s e ev).
  { intros [es [ee [Hes [Hee [Hlt Hgt]]]]]. destruct Htouch as [H|H].
    - rewrite H in Hes. injection Hes as <-.
      unfold Cmp.gt in Hgt. rewrite (cmp_refl e He) in Hgt. discriminate.
    - rewrite H in Hee. injection Hee as <-.
      unfold Cmp.lt in Hlt. rewrite (cmp_refl s Hs) in Hlt. discriminate. }
  split; [exact Hno|]. unfold check_availability.
  now rewrite check_events_pass.
Qed.

Lemma touching_event_is_free_witness :
  check_availability (Ok [timed_event may8 12 0 14 0])
    (local may8 14 0) (local may8 16 0) = Ok true.
Proof.
  apply (touching_event_is_free (local may8 14 0) (local may8 16 0)
           (timed_event may8 12 0 14 0)).
  - discriminate.
  - discriminate.
  - apply timed_event_stamps_aware.
  - right. reflexivity.
Defined.

Lemma lex_compare_antisym (a b : list Z) :
  Datetime.lex_compare b a = CompOpp (Datetime.lex_compare a b).
Proof.
  revert b; induction a as [|x a IH]; intros [|y b]; simpl; try reflexivity.
  rewrite (Z.compare_antisym x y).
  destruct (x ?= y); simpl; [apply IH | reflexivity | reflexivity].
Qed.

Lemma cmp_antisym (a b : datetime) (c : comparison) :
  Cmp.cmp a b = Ok c -> Cmp.cmp b a = Ok (CompOpp c).
Proof.
  unfold Cmp.cmp.
  destruct (tzinfo a) as [oa|], (tzinfo b) as [ob|]; try discriminate.
  - rewrite (Z.eqb_sym ob oa). destruct (oa =? ob).
    + unfold Datetime.compare_naive.
      rewrite (lex_compare_antisym (Datetime.fields (wall a))).
      intros H. injection H as <-. reflexivity.
    + rewrite (Z.compare_antisym (Datetime.instant (wall a) oa)).
      intros H. injection H as <-. reflexivity.
  - unfold Datetime.compare_naive.
    rewrite (lex_compare_antisym (Datetime.fields (wall a))).
    intros H. injection H as <-. reflexivity.
Qed.

Lemma lt_gt_swap (a b : datetime) :
  Cmp.lt a b = Ok true -> Cmp.gt b a = Ok true.
Proof.
  unfold Cmp.lt, Cmp.gt.
  destruct (Cmp.cmp a b) as [c|x] eqn:H; [|discriminate].
  rewrite (cmp_antisym _ _ _ H). destruct c; simpl; congruence.
Qed.

(** X11. The entry [create_calendar_event] books, when the calendar
    lists it back, makes the same interval busy exactly when the interval's
    start is before its end; an interval of zero length is not blocked by
    its own entry. *)
Theorem booked_entry_blocks_its_slot s e :
  check_availability (Ok [create_calendar_event s e]) s e = Ok false
  <-> Cmp.lt s e = Ok true.
Proof.
  simpl. split.
  - destruct (Cmp.lt s e) as [[|]|x]; [reflexivity| |]; discriminate.
  - intros H. now rewrite H, (lt_gt_swap _ _ H).
Qed.

Lemma booked_entry_blocks_its_slot_witness :
  check_availability
    (Ok [create_calendar_event (local may8 2 0) (local may8 16 0)])
    (local may8 2 0) (local may8 16 0) = Ok false.
Proof.
  apply (proj2 (booked_entry_blocks_its_slot (local may8 2 0)
                  (local may8 16 0))).
  reflexivity.
Defined.

Section MoreRuns.

Variable nlp : string -> Doc.
Variable parse : naive -> string -> option naive.
Variable off : naive -> Z.

Local Abbreviation pass := (cycle nlp parse off).
Local Abbreviation run := (main_loop nlp parse off).
Local Abbreviation signalled c :=
  (message_indicates_cancellation nlp (read_whatsapp (screen c))).
Local Abbreviation extracted c :=
  (extract_time_range_from_text parse off (clock c) (read_whatsapp (screen c))).

(** One pass, by the tests it makes. *)
Lemma cycle_cases (c : Cycle) :
  ((signalled c = false \/ extracted c = None)
   /\ pass c = ([Sleep 10], Continue))
  \/ (exists s e x,
        signalled c = true /\ extracted c = Some (s, e)
        /\ check_availability (listing c) s e = Raise x
        /\ pass c = ([ListEvents s e], Abort x))
  \/ (exists s e,
        signalled c = true /\ extracted c = Some (s, e)
        /\ check_availability (listing c) s e = Ok false
        /\ pass c = ([ListEvents s e; Sleep 10], Continue))
  \/ (exists s e x,
        signalled c = true /\ extracted c = Some (s, e)
        /\ check_availability (listing c) s e = Ok true
        /\ typing c = Raise x
        /\ pass c = ([ListEvents s e; Reply reply_text], Abort x))
  \/ (exists s e x,
        signalled c = true /\ extracted c = Some (s, e)
        /\ check_availability (listing c) s e = Ok true
        /\ typing c = Ok tt /\ insertion c = Raise x
        /\ pass c = ([ListEvents s e; Reply reply_text;
                      InsertEvent event_title s e], Abort x))
  \/ (exists s e,
        signalled c = true /\ extracted c = Some (s, e)
        /\ check_availability (listing c) s e = Ok true
        /\ typing c = Ok tt /\ insertion c = Ok tt
        /\ pass c = ([ListEvents s e; Reply reply_text;
                      InsertEvent event_title s e], Break)).
Proof.
  destruct (signalled c) eqn:Hm.
  2:{ left. split; [now left|]. unfold cycle. now rewrite Hm. }
  destruct (extracted c) as [[s e]|] eqn:He.
  2:{ left. split; [now right|]. unfold cycle. now rewrite Hm, He. }
  right.
  destruct (check_availability (listing c) s e) as [[|]|x] eqn:Hk.
  - destruct (typing c) as [[]|x] eqn:Ht.
    + destruct (insertion c) as [[]|x] eqn:Hi.
      * do 4 right. exists s, e. repeat split; try assumption.
        unfold cycle. now rewrite Hm, He, Hk, Ht, Hi.
      * do 3 right. left. exists s, e, x. repeat split; try assumption.
        unfold cycle. now rewrite Hm, He, Hk, Ht, Hi.
    + do 2 right. left. exists s, e, x. repeat split; try assumption.
      unfold cycle. now rewrite Hm, He, Hk, Ht.
  - right. left. exists s, e. repeat split; try assumption.
    unfold cycle. now rewrite Hm, He, Hk.
  - left. exists s, e, x. repeat split; try assumption.
    unfold cycle. now rewrite Hm, He, Hk.
Qed.

Ltac by_cycle_cases c :=
  destruct (cycle_cases c)
    as [[?Hidle ?Hpass]
       |[(?s & ?e & ?x & ?Hm & ?He & ?Hk & ?Hpass)
        |[(?s & ?e & ?Hm & ?He & ?Hk & ?Hpass)
         |[(?s & ?e & ?x & ?Hm & ?He & ?Hk & ?Ht & ?Hpass)
          |[(?s & ?e & ?x & ?Hm & ?He & ?Hk & ?Ht & ?Hi & ?Hpass)
           |(?s & ?e & ?Hm & ?He & ?Hk & ?Ht & ?Hi & ?Hpass)]]]]].

(** X12. A run in which no pass sees both a cancellation and a readable
    time range makes no call to the calendar or the chat: its trace is one
    ten-second sleep per pass, and it keeps polling. *)
Theorem idle_run_only_sleeps cycles :
  (forall c, In c cycles ->
     message_indicates_cancellation nlp (read_whatsapp (screen c)) = false
     \/ extract_time_range_from_text parse off (clock c)
          (read_whatsapp (screen c)) = None) ->
  main_loop nlp parse off cycles
  = (repeat (Sleep 10) (List.length cycles), Polling).
Proof.
  induction cycles as [|c later IH]; intros H; [reflexivity|].
  rewrite main_loop_cons.
  assert (Hc : pass c = ([Sleep 10], Continue)).
  { unfold cycle. destruct (H c (in_eq _ _)) as [Hs|He].
    - now rewrite Hs.
    - rewrite He. now destruct (signalled c). }
  rewrite Hc, IH; [reflexivity|].
  intros c' Hin. apply H. now right.
Qed.

(** X15. The loop exits in one way only: a run that has exited consists
    of passes that kept it polling followed by one pass in which the
    message was a cancellation, a range was extracted, the check answered
    free and both calls returned; its trace ends with the query, the reply
    and the booking of that pass. *)
Theorem exit_only_after_claim cycles :
  snd (run cycles) = Exited ->
  exists before c after s e,
    cycles = (before ++ c :: after)%list
    /\ snd (run before) = Polling
    /\ signalled c = true /\ extracted c = Some (s, e)
    /\ check_availability (listing c) s e = Ok true
    /\ typing c = Ok tt /\ insertion c = Ok tt
    /\ fst (run cycles)
       = (fst (run before)
          ++ [ListEvents s e; Reply reply_text;
              InsertEvent event_title s e])%list.
Proof.
  induction cycles as [|c later IH]; [discriminate|].
  assert (Hstep : pass c = ([Sleep 10], Continue)
                  \/ (exists s e, pass c = ([ListEvents s e; Sleep 10],
                                            Continue)) ->
                  snd (run later) = Exited ->
                  exists before c0 after s e,
                    c :: later = (before ++ c0 :: after)%list
                    /\ snd (run before) = Polling
                    /\ signalled c0 = true /\ extracted c0 = Some (s, e)
                    /\ check_availability (listing c0) s e = Ok true
                    /\ typing c0 = Ok tt /\ insertion c0 = Ok tt
                    /\ fst (run (c :: later))
                       = (fst (run before)
                          ++ [ListEvents s e; Reply reply_text;
                              InsertEvent event_title s e])%list).
  { intros Hcont H.
    destruct (IH H) as (before & c0 & after & s & e & Heq & Hp & Hm & He
                        & Hk & Ht & Hi & Htr).
    exists (c :: before), c0, after, s, e.
    rewrite Heq at 1. split; [reflexivity|].
    rewrite !main_loop_cons.
    destruct Hcont as [Hc|[s' [e' Hc]]]; rewrite Hc; simpl;
      rewrite Htr; repeat split; assumption. }
  intros H. rewrite main_loop_cons in H.
  by_cycle_cases c; rewrite Hpass in H; simpl in H; try discriminate H.
  - apply Hstep; [now left | exact H].
  - apply Hstep; [right; eauto | exact H].
  - exists [], c, later, s, e. rewrite main_loop_cons, Hpass.
    simpl. repeat split; assumption.
Qed.

(** Every action of a run is an action of one of its passes. *)
Lemma run_action_from_pass cycles a :
  In a (fst (run cycles)) -> exists c, In c cycles /\ In a (fst (pass c)).
Proof.
  induction cycles as [|c later IH]; [simpl; tauto|].
  rewrite main_loop_cons.
  assert (Hhere : In a (fst (pass c)) ->
                  exists c0, In c0 (c :: later) /\ In a (fst (pass c0)))
    by (intros H; exists c; split; [now left | exact H]).
  destruct (snd (pass c)); simpl; try exact Hhere.
  intros H. apply in_app_or in H as [H|H]; [now apply Hhere|].
  destruct (IH H) as [c0 [Hin Ha]]. exists c0. split; [now right | exact Ha].
Qed.

Lemma pass_reply c m :
  In (Reply m) (fst (pass c)) ->
  m = reply_text
  /\ exists s e, signalled c = true /\ extracted c = Some (s, e)
                 /\ check_availability (listing c) s e = Ok true.
Proof.
  by_cycle_cases c; rewrite Hpass; simpl; intros Hin;
    repeat (destruct Hin as [Hin|Hin]; try discriminate Hin);
    try contradiction;
    injection Hin as <-; split; try reflexivity; exists s, e; auto.
Qed.

Lemma pass_insert c t s e :
  In (InsertEvent t s e) (fst (pass c)) ->
  t = event_title
  /\ signalled c = true /\ extracted c = Some (s, e)
  /\ check_availability (listing c) s e = Ok true /\ typing c = Ok tt.
Proof.
  by_cycle_cases c; rewrite Hpass; simpl; intros Hin;
    repeat (destruct Hin as [Hin|Hin]; try discriminate Hin);
    try contradiction;
    injection Hin as <- <- <-; auto.
Qed.

(** X16. No reply and no booking without a free check: every reply in
    the trace is the fixed reply text and every booking carries the fixed
    title, and each comes from a pass whose message was a cancellation,
    whose extracted interval is the one booked, and whose check answered
    free (for a booking, the reply call had also returned). *)
Theorem claim_calls_follow_a_free_check cycles :
  (forall m, In (Reply m) (fst (run cycles)) ->
     m = reply_text
     /\ exists c s e, In c cycles /\ signalled c = true
                      /\ extracted c = Some (s, e)
                      /\ check_availability (listing c) s e = Ok true)
  /\ (forall t s e, In (InsertEvent t s e) (fst (run cycles)) ->
        t = event_title
        /\ exists c, In c cycles /\ signalled c = true
                     /\ extracted c = Some (s, e)
                     /\ check_availability (listing c) s e = Ok true
                     /\ typing c = Ok tt).
Proof.
  split.
  - intros m H. apply run_action_from_pass in H as [c [Hin H]].
    apply pass_reply in H as [-> [s [e H]]].
    split; [reflexivity|]. exists c, s, e. auto.
  - intros t s e H. apply run_action_from_pass in H as [c [Hin H]].
    apply pass_insert in H as [-> H].
    split; [reflexivity|]. exists c. auto.
Qed.

Lemma pass_listing c s e :
  In (ListEvents s e) (fst (pass c)) ->
  signalled c = true /\ extracted c = Some (s, e).
Proof.
  by_cycle_cases c; rewrite Hpass; simpl; intros Hin;
    repeat (destruct Hin as [Hin|Hin]; try discriminate Hin);
    try contradiction;
    injection Hin as <- <-; auto.
Qed.

(** X17. The calendar is only ever asked about a window that the parser
    extracted from the message of that pass, classified as a cancellation;
    such a window has zoned endpoints and its start is not after its
    end. *)
Theorem calendar_queried_for_extracted_window cycles s e :
  In (ListEvents s e) (fst (run cycles)) ->
  (exists c, In c cycles /\ signalled c = true /\ extracted c = Some (s, e))
  /\ aware s /\ aware e
  /\ Datetime.compare_naive (wall s) (wall e) <> Gt.
Proof.
  intros H. apply run_action_from_pass in H as [c [Hin H]].
  apply pass_listing in H as [Hm He].
  split; [exists c; auto|].
  destruct (extracted_aware _ _ _ _ _ _ He) as [Hs Hee].
  split; [exact Hs|]. split; [exact Hee|].
  apply first_range_sound in He as [c0 [a [b [_ [_ [Hgt [-> ->]]]]]]].
  now apply gt_naive_compare.
Qed.

(** X18. An all-day event at the head of the calendar's answer ends the
    run: whatever interval the parser returned, the check raises TypeError,
    which leaves the loop without a reply or a booking and before any later
    pass. *)
Theorem all_day_event_ends_the_run before c after s e d1 d2 title later :
  snd (run before) = Polling ->
  signalled c = true -> extracted c = Some (s, e) ->
  listing c = Ok (all_day_event d1 d2 title :: later) ->
  run (before ++ c :: after)
  = ((fst (run before) ++ [ListEvents s e])%list, Crashed TypeError).
Proof.
  intros Hb Hm He Hl.
  assert (Hk : check_availability (listing c) s e = Raise TypeError).
  { rewrite Hl. destruct (extracted_aware _ _ _ _ _ _ He) as [Hs _].
    unfold aware in Hs. destruct s as [ws [os|]]; [|now contradiction Hs].
    destruct d1 as [[? ?] ?], d2 as [[? ?] ?]. reflexivity. }
  rewrite (main_loop_app _ _ _ _ _ Hb), main_loop_cons.
  unfold cycle. rewrite Hm, He, Hk. reflexivity.
Qed.

(** X19. A failed claim is not retried.  After a free check, a failing
    reply call ends the run at once, with the reply attempted and nothing
    booked; a failing booking call ends the run with the reply already sent
    and the booking attempted.  In both cases no later pass runs. *)
Theorem failed_claim_is_not_retried before c after s e x :
  snd (run before) = Polling ->
  signalled c = true -> extracted c = Some (s, e) ->
  check_availability (listing c) s e = Ok true ->
  (typing c = Raise x ->
   run (before ++ c :: after)
   = ((fst (run before) ++ [ListEvents s e; Reply reply_text])%list,
      Crashed x))
  /\ (typing c = Ok tt -> insertion c = Raise x ->
      run (before ++ c :: after)
      = ((fst (run before)
          ++ [ListEvents s e; Reply reply_text;
              InsertEvent event_title s e])%list, Crashed x)).
Proof.
  intros Hb Hm He Hk.
  rewrite (main_loop_app _ _ _ _ _ Hb), main_loop_cons. unfold cycle.
  rewrite Hm, He, Hk. split.
  - intros Ht. rewrite Ht. reflexivity.
  - intros Ht Hi. rewrite Ht, Hi. reflexivity.
Qed.

(** X20. The loop never spins: while a run is still polling, its trace
    holds exactly one ten-second sleep for each pass made. *)
Theorem one_poll_delay_per_pass cycles :
  snd (run cycles) = Polling ->
  filter is_sleep (fst (run cycles))
  = repeat (Sleep 10) (List.length cycles).
Proof.
  induction cycles as [|c later IH]; [reflexivity|].
  rewrite main_loop_cons.
  by_cycle_cases c; rewrite Hpass; simpl; try discriminate;
    intros H; now rewrite (IH H).
Qed.

End MoreRuns.

(** The clock reads the time of day off the token alone; the reference
    only supplies the date. *)
Lemma clock_time_of_token base base' s a :
  Clock12.parse base s = Some a ->
  exists a', Clock12.parse base' s = Some a'
             /\ hour a' = hour a /\ minute a' = minute a
             /\ (year a, month a, day a) = (year base, month base, day base).
Proof.
  unfold Clock12.parse.
  destruct (Re.time_token s) as [|[tok suffix] l]; [discriminate|].
  destruct (Clock12.meridiem suffix) as [pm|]; [|discriminate].
  destruct (_ && _); [|discriminate].
  intros H. injection H as <-. eexists. split; [reflexivity|].
  simpl. auto.
Qed.

Lemma all_tokens_clock_checked : forallb clock_checked all_tokens = true.
Proof. vm_compute. reflexivity. Qed.

Lemma clock_sides (t : string) :
  is_time_token t = true ->
  (forall base h a,
      token_hour t = Some h -> 1 <= h <= 11 ->
      Clock12.parse base (infer_am_pm t true) = Some a -> hour a < 12)
  /\ (forall base b,
         Clock12.parse base (infer_am_pm t false) = Some b -> 12 <= hour b).
Proof.
  intros Ht. apply is_time_token_enum in Ht.
  pose proof (proj1 (forallb_forall _ _) all_tokens_clock_checked t Ht) as H.
  unfold clock_checked in H.
  destruct (token_hour t) as [h0|]; [|discriminate].
  apply andb_true_iff in H as [Hs He]. split.
  - intros base h a Hh Hr Ha. injection Hh as ->.
    destruct (clock_time_of_token base epoch _ _ Ha) as [a' [Ha' [Hh' _]]].
    rewrite Ha' in Hs.
    replace ((1 <=? h) && (h <=? 11)) with true in Hs
      by (symmetry; apply andb_true_iff; split; apply Z.leb_le; lia).
    apply Z.ltb_lt in Hs. lia.
  - intros base b Hb.
    destruct (clock_time_of_token base epoch _ _ Hb) as [b' [Hb' [Hh' _]]].
    rewrite Hb' in He. apply Z.leb_le in He. lia.
Qed.

(** X5. With a resolver that reads twelve-hour clock times, a first
    candidate whose start hour is from 1 to 11 is never rejected as
    reversed when both its endpoints are clock times: the start is read
    before noon, the end at or after noon, and that interval is returned. *)
Theorem morning_start_is_never_reversed parse off now text sr er later h a b :
  reads_clock parse ->
  Re.findall text = (sr, er) :: later ->
  token_hour sr = Some h -> 1 <= h <= 11 ->
  Clock12.parse (Datetime.midnight now) (infer_am_pm sr true) = Some a ->
  Clock12.parse (Datetime.midnight now) (infer_am_pm er false) = Some b ->
  hour a < 12 <= hour b
  /\ extract_time_range_from_text parse off now text
     = Some (localize off (at_time now (hour a) (minute a)),
             localize off (at_time now (hour b) (minute b))).
Proof.
  intros Hclock Hfind Hh Hr Ha Hb.
  assert (Hin : In (sr, er) (Re.findall text)) by (rewrite Hfind; now left).
  apply findall_from_shape in Hin as [Hts Hte].
  assert (Hlt : hour a < 12)
    by exact (proj1 (clock_sides sr Hts) _ _ _ Hh Hr Ha).
  assert (Hge : 12 <= hour b) by exact (proj2 (clock_sides er Hte) _ _ Hb).
  split; [lia|].
  unfold extract_time_range_from_text. rewrite Hfind, first_range_cons.
  unfold resolve. simpl fst. simpl snd.
  destruct (Hclock _ _ _ Ha) as [a' [-> Hsa]].
  destruct (Hclock _ _ _ Hb) as [b' [-> Hsb]].
  assert (Hsec : forall base s t, Clock12.parse base s = Some t ->
                   second t = 0 /\ microsecond t = 0).
  { unfold Clock12.parse. intros base s t.
    destruct (Re.time_token s) as [|[tok suffix] l]; [discriminate|].
    destruct (Clock12.meridiem suffix) as [pm|]; [|discriminate].
    destruct (_ && _); [|discriminate].
    intros H. injection H as <-. split; reflexivity. }
  destruct (Hsec _ _ _ Ha) as [Hsa0 Hua0].
  destruct (Hsec _ _ _ Hb) as [Hsb0 Hub0].
  assert (Ea : Datetime.replace_date a' now = at_time now (hour a) (minute a)).
  { apply replace_date_at_time. unfold same_time in *. simpl.
    destruct Hsa as [-> [-> [-> ->]]]. auto. }
  assert (Eb : Datetime.replace_date b' now = at_time now (hour b) (minute b)).
  { apply replace_date_at_time. unfold same_time in *. simpl.
    destruct Hsb as [-> [-> [-> ->]]]. auto. }
  rewrite Ea, Eb.
  assert (Hgt : Datetime.gt_naive (at_time now (hour a) (minute a))
                  (at_time now (hour b) (minute b)) = false).
  { unfold Datetime.gt_naive, Datetime.compare_naive. simpl.
    rewrite !Z.compare_refl.
    assert (Hc : (hour a ?= hour b) = Lt) by (apply Z.compare_lt_iff; lia).
    now rewrite Hc. }
  now rewrite Hgt.
Qed.

Lemma morning_start_is_never_reversed_witness :
  hour (at_time may8 9 30) < 12 <= hour (at_time may8 23 0)
  /\ extract_time_range_from_text Clock12.parse edt may8 "9:30-11"
     = Some (local may8 9 30, local may8 23 0).
Proof.
  apply (morning_start_is_never_reversed Clock12.parse edt may8 "9:30-11"
           "9:30" "11" [] 9 (at_time may8 9 30) (at_time may8 23 0)).
  - intros base s t H. exists t. repeat split. exact H.
  - reflexivity.
  - reflexivity.
  - lia.
  - reflexivity.
  - reflexivity.
Defined.

Section BusyRuns.

Variable nlp : string -> Doc.
Variable parse : naive -> string -> option naive.
Variable off : naive -> Z.

Local Abbreviation pass := (cycle nlp parse off).
Local Abbreviation run := (main_loop nlp parse off).
Local Abbreviation signalled c :=
  (message_indicates_cancellation nlp (read_whatsapp (screen c))).
Local Abbreviation extracted c :=
  (extract_time_range_from_text parse off (clock c) (read_whatsapp (screen c))).

(** X14. A run in which every availability check that is reached answers
    busy never replies, never books, and keeps polling. *)
Theorem conflicts_keep_polling cycles :
  (forall c s e, In c cycles -> signalled c = true ->
                 extracted c = Some (s, e) ->
                 check_availability (listing c) s e = Ok false) ->
  snd (run cycles) = Polling
  /\ replies (fst (run cycles)) = 0%nat
  /\ inserts (fst (run cycles)) = 0%nat.
Proof.
  intros H.
  assert (Hp : snd (run cycles) = Polling).
  { induction cycles as [|c later IH]; [reflexivity|].
    rewrite main_loop_cons.
    assert (IH' : snd (run later) = Polling)
      by (apply IH; intros c0 s e Hin; apply H; now right).
    destruct (cycle_cases nlp parse off c)
      as [[_ Hpass]
         |[(s & e & x & Hm & He & Hk & Hpass)
          |[(s & e & Hm & He & Hk & Hpass)
           |[(s & e & x & Hm & He & Hk & _)
            |[(s & e & x & Hm & He & Hk & _)
             |(s & e & Hm & He & Hk & _)]]]]];
      try (rewrite (H c s e (in_eq _ _) Hm He) in Hk; discriminate Hk);
      rewrite Hpass; exact IH'. }
  split; [exact Hp|].
  exact (proj2 (proj2 (main_loop_counts nlp parse off cycles)) Hp).
Qed.

(** X13. When every pass of a run gets the empty text from
    [read_whatsapp], as it does whenever the screen capture fails, the run
    only sleeps (the pipeline finding no token in the empty text), ten
    seconds per pass, and keeps polling: a failed capture is never fatal
    and triggers nothing. *)
Theorem failed_captures_only_sleep cycles :
  tokens (nlp "") = [] ->
  (forall c, In c cycles -> read_whatsapp (screen c) = "") ->
  main_loop nlp parse off cycles
  = (repeat (Sleep 10) (List.length cycles), Polling).
Proof.
  intros Hn H. induction cycles as [|c later IH]; [reflexivity|].
  rewrite main_loop_cons.
  assert (Hc : pass c = ([Sleep 10], Continue)).
  { unfold cycle, message_indicates_cancellation.
    rewrite (H c (in_eq _ _)). simpl. unfold cancel_found. now rewrite Hn. }
  rewrite Hc, IH; [reflexivity|].
  intros c' Hin. apply H. now right.
Qed.

End BusyRuns.

(** ** The further properties at sample inputs *)

Lemma idle_run_only_sleeps_witness :
  main_loop sample_nlp Clock12.parse edt [quiet_cycle; blind_cycle]
  = (repeat (Sleep 10) 2, Polling).
Proof.
  apply (idle_run_only_sleeps sample_nlp Clock12.parse edt
           [quiet_cycle; blind_cycle]).
  intros c [<-|[<-|[]]]; left; reflexivity.
Defined.

Lemma failed_captures_only_sleep_witness :
  main_loop sample_nlp Clock12.parse edt [blind_cycle; blind_cycle]
  = (repeat (Sleep 10) 2, Polling).
Proof.
  apply (failed_captures_only_sleep sample_nlp Clock12.parse edt
           [blind_cycle; blind_cycle]).
  - reflexivity.
  - intros c [<-|[<-|[]]]; reflexivity.
Defined.

Lemma conflicts_keep_polling_witness :
  snd (main_loop sample_nlp Clock12.parse edt
         [cancellation_cycle (Ok [timed_event may8 15 0 15 30]); quiet_cycle])
  = Polling.
Proof.
  apply (conflicts_keep_polling sample_nlp Clock12.parse edt
           [cancellation_cycle (Ok [timed_event may8 15 0 15 30]);
            quiet_cycle]).
  intros c s e [<-|[<-|[]]] Hm He.
  - vm_compute in He. injection He as <- <-. reflexivity.
  - discriminate Hm.
Defined.

Lemma exit_only_after_claim_witness :
  exists before c after s e,
    [quiet_cycle; free_cycle (Ok tt) (Ok tt); quiet_cycle]
    = (before ++ c :: after)%list
    /\ snd (main_loop sample_nlp Clock12.parse edt before) = Polling
    /\ message_indicates_cancellation sample_nlp (read_whatsapp (screen c))
       = true
    /\ extract_time_range_from_text Clock12.parse edt (clock c)
         (read_whatsapp (screen c)) = Some (s, e)
    /\ check_availability (listing c) s e = Ok true
    /\ typing c = Ok tt /\ insertion c = Ok tt
    /\ fst (main_loop sample_nlp Clock12.parse edt
              [quiet_cycle; free_cycle (Ok tt) (Ok tt); quiet_cycle])
       = (fst (main_loop sample_nlp Clock12.parse edt before)
          ++ [ListEvents s e; Reply reply_text;
              InsertEvent event_title s e])%list.
Proof.
  apply (exit_only_after_claim sample_nlp Clock12.parse edt
           [quiet_cycle; free_cycle (Ok tt) (Ok tt); quiet_cycle]).
  reflexivity.
Defined.

Lemma claim_calls_follow_a_free_check_witness :
  event_title = event_title
  /\ exists c, In c [quiet_cycle; free_cycle (Ok tt) (Ok tt)]
       /\ message_indicates_cancellation sample_nlp (read_whatsapp (screen c))
          = true
       /\ extract_time_range_from_text Clock12.parse edt (clock c)
            (read_whatsapp (screen c))
          = Some (local may8 2 0, local may8 16 0)
       /\ check_availability (listing c) (local may8 2 0) (local may8 16 0)
          = Ok true
       /\ typing c = Ok tt.
Proof.
  apply (proj2 (claim_calls_follow_a_free_check sample_nlp Clock12.parse edt
                  [quiet_cycle; free_cycle (Ok tt) (Ok tt)])
           event_title (local may8 2 0) (local may8 16 0)).
  simpl. tauto.
Defined.

Lemma calendar_queried_for_extracted_window_witness :
  aware (local may8 2 0) /\ aware (local may8 16 0).
Proof.
  destruct (calendar_queried_for_extracted_window sample_nlp Clock12.parse edt
              [cancellation_cycle (Ok [timed_event may8 15 0 15 30])]
              (local may8 2 0) (local may8 16 0)) as [_ [Hs [He _]]].
  - simpl. tauto.
  - split; assumption.
Defined.

Lemma all_day_event_ends_the_run_witness :
  main_loop sample_nlp Clock12.parse edt
    ([quiet_cycle]
       ++ cancellation_cycle
            (Ok (all_day_event (2025, 5, 8) (2025, 5, 9) None
                   :: [timed_event may8 15 0 15 30]))
       :: [quiet_cycle])
  = (([Sleep 10] ++ [ListEvents (local may8 2 0) (local may8 16 0)])%list,
     Crashed TypeError).
Proof.
  apply (all_day_event_ends_the_run sample_nlp Clock12.parse edt
           [quiet_cycle]
           (cancellation_cycle
              (Ok (all_day_event (2025, 5, 8) (2025, 5, 9) None
                     :: [timed_event may8 15 0 15 30])))
           [quiet_cycle] (local may8 2 0) (local may8 16 0)
           (2025, 5, 8) (2025, 5, 9) None [timed_event may8 15 0 15 30]);
    reflexivity.
Defined.

Lemma failed_claim_is_not_retried_witness :
  main_loop sample_nlp Clock12.parse edt
    ([] ++ free_cycle (Raise FailSafeException) (Ok tt)
        :: [free_cycle (Ok tt) (Ok tt)])
  = (([] ++ [ListEvents (local may8 2 0) (local may8 16 0);
             Reply reply_text])%list,
     Crashed FailSafeException)
  /\ main_loop sample_nlp Clock12.parse edt
       ([] ++ free_cycle (Ok tt) (Raise (HttpError 500))
           :: [free_cycle (Ok tt) (Ok tt)])
     = (([] ++ [ListEvents (local may8 2 0) (local may8 16 0);
                Reply reply_text;
                InsertEvent event_title (local may8 2 0) (local may8 16 0)])%list,
        Crashed (HttpError 500)).
Proof.
  split.
  - apply (proj1 (failed_claim_is_not_retried sample_nlp Clock12.parse edt
                    [] (free_cycle (Raise FailSafeException) (Ok tt))
                    [free_cycle (Ok tt) (Ok tt)]
                    (local may8 2 0) (local may8 16 0) FailSafeException
                    eq_refl eq_refl eq_refl eq_refl)).
    reflexivity.
  - apply (proj2 (failed_claim_is_not_retried sample_nlp Clock12.parse edt
                    [] (free_cycle (Ok tt) (Raise (HttpError 500)))
                    [free_cycle (Ok tt) (Ok tt)]
                    (local may8 2 0) (local may8 16 0) (HttpError 500)
                    eq_refl eq_refl eq_refl eq_refl));
      reflexivity.
Defined.

Lemma one_poll_delay_per_pass_witness :
  filter is_sleep
    (fst (main_loop sample_nlp Clock12.parse edt
            [cancellation_cycle (Ok [timed_event may8 15 0 15 30]);
             quiet_cycle]))
  = repeat (Sleep 10) 2.
Proof.
  apply (one_poll_delay_per_pass sample_nlp Clock12.parse edt
           [cancellation_cycle (Ok [timed_event may8 15 0 15 30]);
            quiet_cycle]).
  reflexivity.
Defined.
